(** * The rule-based dialogue engine of the support backend

    A shallow embedding of the engine that [routes/chat.ts] imports as
    [services/aiService]: the step machine
    ([getNextStep]), the text classifiers ([detectCategory],
    [isAffirmative], [isNegative], [extractNameFromInput], the e-mail
    check) and the turn processor ([processAIMessage]).

    Strings.  A JavaScript string is modelled as a Rocq [string] whose
    characters are the code units U+0000 .. U+00FF, one character per code
    unit, so [String.length] is the [length] property.  Prompt literals of
    the source that hold characters outside that range are written as they
    stand in the source file; the engine only concatenates them. *)

From Stdlib Require Import Bool Arith Lia List String Ascii.
From stdpp Require Import base gmap.
Import ListNotations.

Local Open Scope string_scope.
Local Open Scope bool_scope.
Local Open Scope nat_scope.

(** ** JavaScript string primitives *)

Module Js.

Definition code (c : ascii) : nat := nat_of_ascii c.

Definition between (lo hi : nat) (c : ascii) : bool :=
  (lo <=? code c) && (code c <=? hi).

(** White space of [String.prototype.trim] and of the class [\s], within
    U+0000 .. U+00FF: TAB, LF, VT, FF, CR, SPACE and NO-BREAK SPACE. *)
Definition is_space (c : ascii) : bool :=
  between 9 13 c || (code c =? 32) || (code c =? 160).

(** The class [\w]. *)
Definition is_word (c : ascii) : bool :=
  between 48 57 c || between 65 90 c || (code c =? 95) || between 97 122 c.

(** [toLowerCase] on one code unit: A-Z, and the Latin-1 capitals
    U+00C0 .. U+00DE except the multiplication sign U+00D7. *)
Definition lower (c : ascii) : ascii :=
  if between 65 90 c || (between 192 222 c && negb (code c =? 215))
  then ascii_of_nat (code c + 32) else c.

(** Case folding of a regular expression with the [i] flag, as far as it
    can relate a character to an ASCII pattern character. *)
Definition fold_case (c : ascii) : ascii :=
  if between 97 122 c then ascii_of_nat (code c - 32) else c.

Fixpoint toLowerCase (s : string) : string :=
  match s with
  | EmptyString => EmptyString
  | String c t => String (lower c) (toLowerCase t)
  end.

Fixpoint trimStart (s : string) : string :=
  match s with
  | String c t => if is_space c then trimStart t else s
  | EmptyString => EmptyString
  end.

(** [trimEnd]: a white-space character is kept only if something is kept
    after it. *)
Fixpoint trimEnd (s : string) : string :=
  match s with
  | EmptyString => EmptyString
  | String c t =>
      match trimEnd t with
      | EmptyString => if is_space c then EmptyString else String c EmptyString
      | t' => String c t'
      end
  end.

Definition trim (s : string) : string := trimEnd (trimStart s).

Fixpoint startsWith (pat s : string) : bool :=
  match pat, s with
  | EmptyString, _ => true
  | String p pat', String c s' => Ascii.eqb p c && startsWith pat' s'
  | String _ _, EmptyString => false
  end.

(** [s.includes(pat)]. *)
Fixpoint includes (s pat : string) : bool :=
  startsWith pat s ||
  match s with
  | EmptyString => false
  | String _ t => includes t pat
  end.

(** [s.substring(0, n)]. *)
Fixpoint take (n : nat) (s : string) : string :=
  match n, s with
  | S n', String c t => String c (take n' t)
  | _, _ => EmptyString
  end.

(** [s.split(sep)] for a separator of one character. *)
Fixpoint split (sep : ascii) (s : string) : list string :=
  match s with
  | EmptyString => [EmptyString]
  | String c t =>
      if Ascii.eqb c sep then EmptyString :: split sep t
      else match split sep t with
           | w :: ws => String c w :: ws
           | [] => [String c EmptyString]
           end
  end.

(** [arr.join(sep)]. *)
Fixpoint join (sep : string) (l : list string) : string :=
  match l with
  | [] => EmptyString
  | [x] => x
  | x :: t => x ++ sep ++ join sep t
  end.

(** [s.replace(/[C]/g, '')] for a character class [C] given as [p]. *)
Fixpoint remove_class (p : ascii -> bool) (s : string) : string :=
  match s with
  | EmptyString => EmptyString
  | String c t => if p c then remove_class p t else String c (remove_class p t)
  end.

(** [s.replace(/[C]+/g, by)]: every maximal run of class characters is
    replaced by [by]. *)
Fixpoint replace_runs (p : ascii -> bool) (by_ : string) (s : string) : string :=
  match s with
  | EmptyString => EmptyString
  | String c t =>
      if p c then
        match t with
        | String c' _ => if p c' then replace_runs p by_ t
                         else by_ ++ replace_runs p by_ t
        | EmptyString => by_
        end
      else String c (replace_runs p by_ t)
  end.

(** Truthiness of an optional string: [undefined] and [''] are falsy. *)
Definition truthy (o : option string) : bool :=
  match o with
  | Some s => negb (String.eqb s "")
  | None => false
  end.

(** [`${o}`] for an optional string. *)
Definition show (o : option string) : string :=
  match o with
  | Some s => s
  | None => "undefined"
  end.

(** [o || d]. *)
Definition or_else (o : option string) (d : string) : string :=
  if truthy o then show o else d.

End Js.

(** ** Regular expressions

    A backtracking matcher in the style of the ECMAScript semantics:
    alternatives are tried left to right, a greedy quantifier tries the
    longest repetition first and a lazy one the shortest, and the first
    success in that order is the match.  Quantifiers of the source are all
    applied to a single character or class, so [Repeat] takes a class. *)

Module Regex.

Inductive regex : Type :=
| Empty
| Class (p : ascii -> bool)
| Seq (r1 r2 : regex)
| Or (r1 r2 : regex)
| Repeat (p : ascii -> bool) (lo : nat) (hi : option nat) (greedy : bool)
| Group (r : regex)
| Bol
| Eol
| WordBoundary.

(** A capture: start and end offsets in the subject. *)
Definition capture : Type := option (nat * nat).

Definition dec (hi : option nat) : option nat := option_map Nat.pred hi.

Definition room (hi : option nat) : bool :=
  match hi with
  | Some 0 => false
  | _ => true
  end.

Fixpoint repeat_class {A : Type} (p : ascii -> bool) (greedy : bool)
    (lo : nat) (hi : option nat)
    (prev : option ascii) (rest : list ascii) (pos : nat)
    (k : option ascii -> list ascii -> nat -> option A) {struct rest} : option A :=
  match lo with
  | S lo' =>
      match rest with
      | c :: t =>
          if p c && room hi
          then repeat_class p greedy lo' (dec hi) (Some c) t (S pos) k
          else None
      | [] => None
      end
  | 0 =>
      match rest with
      | c :: t =>
          if p c && room hi then
            if greedy then
              match repeat_class p greedy 0 (dec hi) (Some c) t (S pos) k with
              | Some x => Some x
              | None => k prev rest pos
              end
            else
              match k prev rest pos with
              | Some x => Some x
              | None => repeat_class p greedy 0 (dec hi) (Some c) t (S pos) k
              end
          else k prev rest pos
      | [] => k prev rest pos
      end
  end.

Definition word_at (o : option ascii) : bool :=
  match o with
  | Some c => Js.is_word c
  | None => false
  end.

Fixpoint run {A : Type} (r : regex)
    (prev : option ascii) (rest : list ascii) (pos : nat) (cap : capture)
    (k : option ascii -> list ascii -> nat -> capture -> option A) : option A :=
  match r with
  | Empty => k prev rest pos cap
  | Class p =>
      match rest with
      | c :: t => if p c then k (Some c) t (S pos) cap else None
      | [] => None
      end
  | Seq r1 r2 =>
      run r1 prev rest pos cap (fun pv rs ps cp => run r2 pv rs ps cp k)
  | Or r1 r2 =>
      match run r1 prev rest pos cap k with
      | Some x => Some x
      | None => run r2 prev rest pos cap k
      end
  | Repeat p lo hi greedy =>
      repeat_class p greedy lo hi prev rest pos (fun pv rs ps => k pv rs ps cap)
  | Group r1 =>
      run r1 prev rest pos cap (fun pv rs ps _ => k pv rs ps (Some (pos, ps)))
  | Bol => if pos =? 0 then k prev rest pos cap else None
  | Eol => match rest with [] => k prev rest pos cap | _ => None end
  | WordBoundary =>
      if xorb (word_at prev) (word_at (hd_error rest))
      then k prev rest pos cap else None
  end.

(** A match: where it starts, where it ends, and what the group caught. *)
Record found : Type := Found { m_start : nat; m_end : nat; m_group : capture }.

(** The leftmost match, start offsets tried in increasing order. *)
Fixpoint search (r : regex) (prev : option ascii) (rest : list ascii) (pos : nat)
    : option found :=
  match run r prev rest pos None (fun _ _ e cp => Some (Found pos e cp)) with
  | Some m => Some m
  | None =>
      match rest with
      | c :: t => search r (Some c) t (S pos)
      | [] => None
      end
  end.

Definition exec (r : regex) (s : string) : option found :=
  search r None (list_ascii_of_string s) 0.

(** [r.test(s)]. *)
Definition test (r : regex) (s : string) : bool :=
  match exec r s with Some _ => true | None => false end.

Fixpoint skip (n : nat) (s : string) : string :=
  match n, s with
  | S n', String _ t => skip n' t
  | _, _ => s
  end.

(** [s.match(r)[1]] when [r] matches and its group took part. *)
Definition match_group (r : regex) (s : string) : option string :=
  match exec r s with
  | Some (Found _ _ (Some (b, e))) => Some (Js.take (e - b) (skip b s))
  | _ => None
  end.

(** Pattern builders. *)
Definition chr (c : ascii) : regex := Class (Ascii.eqb c).

Definition chr_i (c : ascii) : regex :=
  Class (fun x => Ascii.eqb (Js.fold_case x) (Js.fold_case c)).

Fixpoint lit (s : string) : regex :=
  match s with
  | EmptyString => Empty
  | String c EmptyString => chr c
  | String c t => Seq (chr c) (lit t)
  end.

Fixpoint lit_i (s : string) : regex :=
  match s with
  | EmptyString => Empty
  | String c EmptyString => chr_i c
  | String c t => Seq (chr_i c) (lit_i t)
  end.

Fixpoint any_of (rs : list regex) : regex :=
  match rs with
  | [] => Class (fun _ => false)
  | [r] => r
  | r :: t => Or r (any_of t)
  end.

Fixpoint seq_of (rs : list regex) : regex :=
  match rs with
  | [] => Empty
  | [r] => r
  | r :: t => Seq r (seq_of t)
  end.

Definition plus (p : ascii -> bool) : regex := Repeat p 1 None true.
Definition star (p : ascii -> bool) : regex := Repeat p 0 None true.
Definition opt (c : ascii) : regex := Repeat (Ascii.eqb c) 0 (Some 1) true.

End Regex.

(** ** Enumerations ([src/types]) *)

Inductive ConversationStep : Type :=
| GREETING
| COLLECT_NAME
| COLLECT_ISSUE
| CLARIFY_DETAILS
| SUGGEST_CATEGORY
| CONFIRM_CATEGORY
| FINAL_CONFIRMATION
| TICKET_CREATED
| ERROR.

Inductive TicketCategory : Type :=
| TECHNICAL
| BILLING
| ACCOUNT
| FEATURE_REQUEST
| BUG_REPORT
| GENERAL
| OTHER.

(** The string each member of [TicketCategory] stands for. *)
Definition category_name (c : TicketCategory) : string :=
  match c with
  | TECHNICAL => "technical"
  | BILLING => "billing"
  | ACCOUNT => "account"
  | FEATURE_REQUEST => "feature_request"
  | BUG_REPORT => "bug_report"
  | GENERAL => "general"
  | OTHER => "other"
  end.

(** ** Category detection *)

(** [CATEGORY_PATTERNS], in the order [Object.entries] lists its keys. *)
Definition CATEGORY_PATTERNS : list (TicketCategory * list string) :=
  [ (TECHNICAL,
     ["bug"; "error"; "crash"; "broken"; "not working"; "issue"; "problem";
      "glitch"; "freeze"; "slow"; "performance"; "loading"; "timeout";
      "connection"; "server"; "database"; "api"; "sync"; "refresh"]);
    (BILLING,
     ["payment"; "charge"; "billing"; "invoice"; "refund"; "subscription";
      "price"; "cost"; "credit card"; "transaction"; "money"; "plan";
      "upgrade"; "downgrade"; "cancel"; "receipt"]);
    (ACCOUNT,
     ["login"; "password"; "access"; "account"; "profile"; "settings";
      "email"; "username"; "forgot"; "reset"; "security"; "verification";
      "signin"; "logout"; "permissions"]);
    (FEATURE_REQUEST,
     ["feature"; "request"; "suggestion"; "improvement"; "enhancement";
      "add"; "new"; "would like"; "could you"; "wish"; "hope";
      "functionality"; "option"; "ability"]);
    (BUG_REPORT,
     ["bug"; "error message"; "unexpected"; "wrong"; "incorrect";
      "mistake"; "fault"; "defect"; "glitch"; "malfunction"]) ].

(** [patterns.filter(pattern => lowerText.includes(pattern)).length]. *)
Definition count_matches (lowerText : string) (patterns : list string) : nat :=
  List.length (List.filter (Js.includes lowerText) patterns).

(** One turn of the [forEach] loop on the pair [(maxMatches,
    detectedCategory)]. *)
Definition detect_step (lowerText : string)
    (acc : nat * TicketCategory) (entry : TicketCategory * list string)
    : nat * TicketCategory :=
  let matches := count_matches lowerText (snd entry) in
  if fst acc <? matches then (matches, fst entry) else acc.

Definition detect_loop (lowerText : string)
    (entries : list (TicketCategory * list string)) : nat * TicketCategory :=
  fold_left (detect_step lowerText) entries (0, GENERAL).

Definition detectCategory (text : string) : TicketCategory :=
  let lowerText := Js.toLowerCase text in
  let '(maxMatches, detectedCategory) := detect_loop lowerText CATEGORY_PATTERNS in
  if 0 <? maxMatches then detectedCategory else GENERAL.

(** ** Display names

    [displayNames[category] || 'Unknown'] reads a property of an object
    literal.  The literal has the seven category names as its own keys;
    any other key is looked up in [Object.prototype], which holds eleven
    functions and the [__proto__] accessor, whose value is the prototype
    itself.  What is found there is truthy, so it is what the function
    returns, whatever its declared return type says. *)
Inductive PropertyValue : Type :=
| Text (s : string)
| BuiltinFunction (name : string)
| ObjectPrototype.

Definition Object_prototype : list (string * PropertyValue) :=
  [("constructor", BuiltinFunction "Object");
   ("__defineGetter__", BuiltinFunction "__defineGetter__");
   ("__defineSetter__", BuiltinFunction "__defineSetter__");
   ("hasOwnProperty", BuiltinFunction "hasOwnProperty");
   ("__lookupGetter__", BuiltinFunction "__lookupGetter__");
   ("__lookupSetter__", BuiltinFunction "__lookupSetter__");
   ("isPrototypeOf", BuiltinFunction "isPrototypeOf");
   ("propertyIsEnumerable", BuiltinFunction "propertyIsEnumerable");
   ("toString", BuiltinFunction "toString");
   ("valueOf", BuiltinFunction "valueOf");
   ("__proto__", ObjectPrototype);
   ("toLocaleString", BuiltinFunction "toLocaleString")].

Definition inherited_keys : list string := List.map fst Object_prototype.

Fixpoint own_property (key : string) (properties : list (string * PropertyValue))
    : option PropertyValue :=
  match properties with
  | [] => None
  | (k, v) :: rest => if String.eqb key k then Some v else own_property key rest
  end.

(** [o[key]] for an object literal with the given own properties. *)
Definition get_property (properties : list (string * PropertyValue)) (key : string)
    : option PropertyValue :=
  match own_property key properties with
  | Some v => Some v
  | None => own_property key Object_prototype
  end.

(** Truthiness of a property that is there: functions and objects are
    truthy, a string unless it is empty. *)
Definition property_truthy (v : PropertyValue) : bool :=
  match v with
  | Text s => negb (String.eqb s "")
  | BuiltinFunction _ | ObjectPrototype => true
  end.

(** [`${v}`]: a string as it is, a built-in function as V8 prints it, the
    prototype object through [Object.prototype.toString]. *)
Definition template (v : PropertyValue) : string :=
  match v with
  | Text s => s
  | BuiltinFunction name => "function " ++ name ++ "() { [native code] }"
  | ObjectPrototype => "[object Object]"
  end.

Definition displayNames : list (string * PropertyValue) :=
  [(category_name TECHNICAL, Text "Technical Issue");
   (category_name BILLING, Text "Billing & Payments");
   (category_name ACCOUNT, Text "Account Management");
   (category_name FEATURE_REQUEST, Text "Feature Request");
   (category_name BUG_REPORT, Text "Bug Report");
   (category_name GENERAL, Text "General Inquiry");
   (category_name OTHER, Text "Other")].

(** The key is the category converted to a string, so an absent category
    reads the property named [undefined]. *)
Definition getCategoryDisplayName (category : option string) : PropertyValue :=
  match get_property displayNames (Js.show category) with
  | Some v => if property_truthy v then v else Text "Unknown"
  | None => Text "Unknown"
  end.

(** ** Affirmative and negative replies *)

Definition affirmatives : list string :=
  ["yes"; "yeah"; "yep"; "yup"; "sure"; "correct"; "right"; "exactly";
   "that's right"; "sounds good"; "looks good"; "ok"; "okay"; "k";
   "absolutely"; "definitely"; "of course"; "perfect"; "great";
   "let's do it"; "lets do it"; "go ahead"; "proceed"; "continue";
   "create it"; "create the ticket"; "make the ticket"; "submit it";
   "confirm"; "approved"; "good to go"; "all good"; "that works"].

Definition negatives : list string :=
  ["no"; "nope"; "nah"; "not"; "wrong"; "incorrect"; "different";
   "that's wrong"; "not right"; "not correct"; "not quite";
   "don't"; "dont"; "stop"; "cancel"; "abort"; "nevermind";
   "never mind"; "wait"; "hold on"; "not yet"; "not ready"].

(** The test both detectors apply to each phrase. *)
Definition phrase_hit (lowerInput phrase : string) : bool :=
  String.eqb lowerInput phrase
  || Js.includes lowerInput phrase
  || ((3 <? String.length phrase) && Js.includes lowerInput phrase).

Definition isAffirmative (input : string) : bool :=
  let lowerInput := Js.trim (Js.toLowerCase input) in
  existsb (phrase_hit lowerInput) affirmatives.

Definition isNegative (input : string) : bool :=
  let lowerInput := Js.trim (Js.toLowerCase input) in
  existsb (phrase_hit lowerInput) negatives.

(** ** Name extraction *)

Record NameResult : Type := mkNameResult {
  name : string;
  isSentence : bool;
  needsClarification : bool
}.

Import Regex.

Definition one_of (cs : string) (c : ascii) : bool :=
  existsb (Ascii.eqb c) (list_ascii_of_string cs).

Definition sentencePatterns : list regex :=
  [ (* /^(hi|hello|hey|good morning|good afternoon|good evening)/ *)
    Seq Bol (Group (any_of [lit "hi"; lit "hello"; lit "hey"; lit "good morning";
                            lit "good afternoon"; lit "good evening"]));
    (* /\b(my name is|i am|i'm|call me|name's)\s+/ *)
    seq_of [WordBoundary;
            Group (any_of [lit "my name is"; lit "i am"; lit "i'm";
                           lit "call me"; lit "name's"]);
            plus Js.is_space];
    (* /\b(and|but|so|because|i need|i want|please|help)/ *)
    Seq WordBoundary
        (Group (any_of [lit "and"; lit "but"; lit "so"; lit "because";
                        lit "i need"; lit "i want"; lit "please"; lit "help"]));
    (* /[.!?]/ *)
    Class (one_of ".!?") ].

(** The class [[a-zA-Z\s\-'\.]]. *)
Definition name_char (c : ascii) : bool :=
  Js.between 97 122 c || Js.between 65 90 c || Js.is_space c || one_of "-'." c.

(** The group [([a-zA-Z\s\-'\.]{2,30}?)] and what follows it,
    [(?:\s+and|\s+,|\s*\.|$)], under the [i] flag. *)
Definition name_group : regex := Group (Repeat name_char 2 (Some 30) false).

Definition name_end : regex :=
  any_of [Seq (plus Js.is_space) (lit_i "and");
          Seq (plus Js.is_space) (chr ",");
          Seq (star Js.is_space) (chr ".");
          Eol].

Definition namePatterns : list regex :=
  [ seq_of [any_of [lit_i "my name is"; lit_i "i am"; lit_i "i'm";
                    lit_i "call me"; lit_i "name's"];
            plus Js.is_space; name_group; name_end];
    seq_of [Bol; any_of [lit_i "hi"; lit_i "hello"; lit_i "hey"];
            opt ","; plus Js.is_space;
            any_of [lit_i "my name is"; lit_i "i am"; lit_i "i'm"];
            plus Js.is_space; name_group; name_end] ].

(** [.replace(/[^\w\s\-'\.]/g, '').replace(/\s+/g, ' ')]. *)
Definition clean_name (s : string) : string :=
  Js.replace_runs Js.is_space " "
    (Js.remove_class
       (fun c => negb (Js.is_word c || Js.is_space c || one_of "-'." c)) s).

(** The [for] loop over [namePatterns]: the first pattern that matches
    with a cleaned group of 2 to 30 characters gives the name. *)
Fixpoint first_name (patterns : list regex) (cleanInput : string) : option string :=
  match patterns with
  | [] => None
  | pattern :: others =>
      match match_group pattern cleanInput with
      | Some g =>
          let extractedName := clean_name (Js.trim g) in
          if (2 <=? String.length extractedName)
             && (String.length extractedName <=? 30)
          then Some extractedName
          else first_name others cleanInput
      | None => first_name others cleanInput
      end
  end.

Definition extractNameFromInput (input : string) : NameResult :=
  let cleanInput := Js.trim input in
  let lowerInput := Js.toLowerCase cleanInput in
  let isSentence :=
    existsb (fun pattern => test pattern lowerInput) sentencePatterns
    || (3 <? List.length (Js.split " " cleanInput)) in
  if isSentence then
    match first_name namePatterns cleanInput with
    | Some extractedName => mkNameResult extractedName true true
    | None => mkNameResult "" true true
    end
  else
    let cleanedName := Js.take 50 (clean_name cleanInput) in
    mkNameResult cleanedName false (String.length cleanedName <? 2).

(** The e-mail check [/^[^\s@]+@[^\s@]+\.[^\s@]+$/]. *)
Definition email_char (c : ascii) : bool :=
  negb (Js.is_space c || Ascii.eqb c "@").

Definition emailRegex : regex :=
  seq_of [Bol; plus email_char; chr "@"; plus email_char; chr ".";
          plus email_char; Eol].

(** ** Conversation data

    Arrays are JavaScript objects with identity: the array behind
    [collectedData.additionalDetails] is reached through a reference, and
    the spread [{ ...collectedData }] copies the reference, not the array.
    The store maps references to array contents.  The conversation object
    and the collected-data object are only ever read and spread into fresh
    objects, so they are values here. *)

Definition loc : Type := positive.

Abbreviation heap := (gmap loc (list string)).

(** What [additionalDetails] holds at run time.  The declared type is
    [string[]]; the route that loads a conversation from storage casts the
    stored JSON ([collectedData as any]), so a value of another shape can
    reach the engine: a string stands for those. *)
Inductive Details : Type :=
| DetailsArray (l : loc)
| DetailsString (s : string).

(** The declared properties of [collectedData], and [potentialName],
    the property the GREETING case adds while a name awaits
    confirmation. *)
Record CollectedData : Type := mkCollectedData {
  userName : option string;
  userEmail : option string;
  issueDescription : option string;
  issueTitle : option string;
  suggestedCategory : option string;
  confirmedCategory : option string;
  additionalDetails : option Details;
  potentialName : option string
}.

Inductive MessageRole : Type := user | assistant | system.

Record Message : Type := mkMessage {
  msg_id : string;
  msg_role : MessageRole;
  msg_content : string;
  msg_timestamp : string;
  msg_metadata : option (list (string * string))
}.

Record ConversationState : Type := mkConversationState {
  id : string;
  currentStep : ConversationStep;
  collectedData : CollectedData;
  messages : list Message;
  isComplete : bool;
  createdTicketId : option string;
  startedAt : string;
  completedAt : option string
}.

Inductive ResponseType : Type :=
| type_question
| type_clarification
| type_category_suggestion
| type_confirmation
| type_success
| type_error
| type_typing.

Record AIResponse : Type := mkAIResponse {
  type : ResponseType;
  content : string;
  nextStep : option ConversationStep;
  suggestions : option (list string);
  categoryOptions : option (list string);
  requiresInput : bool;
  metadata : option (list (string * bool))
}.

Record AIProcessResult : Type := mkAIProcessResult {
  assistantResponse : AIResponse;
  updatedConversation : ConversationState;
  result_suggestedCategory : option string
}.

(** Assignments to one property of [updatedData]. *)
Definition set_userName (v : option string) (d : CollectedData) : CollectedData :=
  mkCollectedData v (userEmail d) (issueDescription d) (issueTitle d)
    (suggestedCategory d) (confirmedCategory d) (additionalDetails d) (potentialName d).

Definition set_userEmail (v : option string) (d : CollectedData) : CollectedData :=
  mkCollectedData (userName d) v (issueDescription d) (issueTitle d)
    (suggestedCategory d) (confirmedCategory d) (additionalDetails d) (potentialName d).

Definition set_issueDescription (v : option string) (d : CollectedData) : CollectedData :=
  mkCollectedData (userName d) (userEmail d) v (issueTitle d)
    (suggestedCategory d) (confirmedCategory d) (additionalDetails d) (potentialName d).

Definition set_issueTitle (v : option string) (d : CollectedData) : CollectedData :=
  mkCollectedData (userName d) (userEmail d) (issueDescription d) v
    (suggestedCategory d) (confirmedCategory d) (additionalDetails d) (potentialName d).

Definition set_suggestedCategory (v : option string) (d : CollectedData) : CollectedData :=
  mkCollectedData (userName d) (userEmail d) (issueDescription d) (issueTitle d)
    v (confirmedCategory d) (additionalDetails d) (potentialName d).

Definition set_confirmedCategory (v : option string) (d : CollectedData) : CollectedData :=
  mkCollectedData (userName d) (userEmail d) (issueDescription d) (issueTitle d)
    (suggestedCategory d) v (additionalDetails d) (potentialName d).

Definition set_additionalDetails (v : option Details) (d : CollectedData) : CollectedData :=
  mkCollectedData (userName d) (userEmail d) (issueDescription d) (issueTitle d)
    (suggestedCategory d) (confirmedCategory d) v (potentialName d).

Definition set_potentialName (v : option string) (d : CollectedData) : CollectedData :=
  mkCollectedData (userName d) (userEmail d) (issueDescription d) (issueTitle d)
    (suggestedCategory d) (confirmedCategory d) (additionalDetails d) v.

(** [{ ...conversation, currentStep: step }]. *)
Definition with_currentStep (step : ConversationStep) (c : ConversationState)
    : ConversationState :=
  mkConversationState (id c) step (collectedData c) (messages c) (isComplete c)
    (createdTicketId c) (startedAt c) (completedAt c).

Definition step_eqb (a b : ConversationStep) : bool :=
  match a, b with
  | GREETING, GREETING | COLLECT_NAME, COLLECT_NAME
  | COLLECT_ISSUE, COLLECT_ISSUE | CLARIFY_DETAILS, CLARIFY_DETAILS
  | SUGGEST_CATEGORY, SUGGEST_CATEGORY | CONFIRM_CATEGORY, CONFIRM_CATEGORY
  | FINAL_CONFIRMATION, FINAL_CONFIRMATION | TICKET_CREATED, TICKET_CREATED
  | ERROR, ERROR => true
  | _, _ => false
  end.

(** ** The step machine *)

Definition getNextStep (currentStep : ConversationStep) (userInput : string)
    (collectedData : CollectedData) : ConversationStep :=
  match currentStep with
  | GREETING => COLLECT_ISSUE
  | COLLECT_ISSUE => CLARIFY_DETAILS
  | CLARIFY_DETAILS => SUGGEST_CATEGORY
  | SUGGEST_CATEGORY => CONFIRM_CATEGORY
  | CONFIRM_CATEGORY =>
      if negb (Js.truthy (userEmail collectedData))
      then COLLECT_NAME else FINAL_CONFIRMATION
  | COLLECT_NAME => FINAL_CONFIRMATION
  | FINAL_CONFIRMATION => TICKET_CREATED
  | _ => ERROR
  end.

(** ** Store, exceptions and the operations on arrays *)

Inductive completion (A : Type) : Type :=
| Returns (a : A)
| Throws (e : string).

Arguments Returns {A} a.
Arguments Throws {A} e.

Definition M (A : Type) : Type := heap -> completion A * heap.

Definition ret {A : Type} (a : A) : M A := fun h => (Returns a, h).

Definition throw {A : Type} (e : string) : M A := fun h => (Throws e, h).

Definition bind {A B : Type} (m : M A) (f : A -> M B) : M B :=
  fun h =>
    match m h with
    | (Returns a, h') => f a h'
    | (Throws e, h') => (Throws e, h')
    end.

(** [try { m } catch (error) { handler }]: what [m] did to the store
    before it threw stays done. *)
Definition try_catch {A : Type} (m : M A) (handler : string -> M A) : M A :=
  fun h =>
    match m h with
    | (Returns a, h') => (Returns a, h')
    | (Throws e, h') => handler e h'
    end.

Notation "'let*' x ':=' m 'in' k" := (bind m (fun x => k))
  (at level 10, x name, k at level 200).

(** The array literal [[]]: a new array at a reference not yet in use. *)
Definition new_array : M loc :=
  fun h => let l := fresh (dom h) in (Returns l, <[l := []]> h).

(** Truthiness of [additionalDetails]: an array is truthy, also when it
    is empty; of the strings only [''] is falsy. *)
Definition details_truthy (o : option Details) : bool :=
  match o with
  | Some (DetailsArray _) => true
  | Some (DetailsString s) => negb (String.eqb s "")
  | None => false
  end.

(** [d.push(x)]: in place on an array; a string has no such method and
    the call throws a [TypeError]. *)
Definition push (d : Details) (x : string) : M unit :=
  match d with
  | DetailsArray l => fun h => (Returns tt, <[l := (h !!! l ++ [x])%list]> h)
  | DetailsString _ => throw "TypeError: updatedData.additionalDetails.push is not a function"
  end.

(** [d.join(sep)]. *)
Definition join (d : Details) (sep : string) : M string :=
  match d with
  | DetailsArray l => fun h => (Returns (Js.join sep (h !!! l)), h)
  | DetailsString _ => throw "TypeError: updatedData.additionalDetails.join is not a function"
  end.

(** ** Prompts *)

Definition nl : string := String (ascii_of_nat 10) EmptyString.
Definition dq : string := String (ascii_of_nat 34) EmptyString.

Module AI_PROMPTS.

Definition GREETING : string :=
  "Hi there! 👋 I'm here to help you create a support ticket. To get started, could you please tell me your name?".

Definition COLLECT_ISSUE (name : option string) : string :=
  "Nice to meet you, " ++ Js.show name ++
  "! Now, could you please describe the issue you're experiencing? Be as detailed as possible - this will help our support team assist you better.".

Definition CLARIFY_DETAILS : string :=
  "Thank you for that information. Could you provide any additional details that might help us understand the issue better? For example, when did this start happening, or what steps led to this issue?".

Definition SUGGEST_CATEGORY (suggestedCategory : string) : string :=
  "Based on your description, this seems like a **" ++
  template (getCategoryDisplayName (Some suggestedCategory)) ++
  "** issue. Does this sound right to you? You can confirm this category or let me know if you think it should be categorized differently.".

Definition COLLECT_EMAIL : string :=
  "Great! To complete your support ticket, could you please provide your email address? This will help our support team get back to you.".

Definition FINAL_CONFIRMATION (userName issueDescription category userEmail : option string)
    : string :=
  "Perfect! Let me confirm the details for your support ticket:" ++ nl ++ nl ++
  "**Name:** " ++ Js.show userName ++ nl ++
  "**Email:** " ++ Js.or_else userEmail "Not provided" ++ nl ++
  "**Issue:** " ++ Js.show issueDescription ++ nl ++
  "**Category:** " ++ template (getCategoryDisplayName category) ++ nl ++ nl ++
  "Does everything look correct? If yes, I'll create your support ticket right away!".

Definition ERROR : string :=
  "I apologize, but something went wrong. Let me try to help you in a different way. Could you please tell me what you were trying to do?".

End AI_PROMPTS.

(** ** The turn processor *)

(** The variables [processAIMessage] assigns in its [switch]. *)
Record Turn : Type := mkTurn {
  turn_updatedData : CollectedData;
  turn_aiResponse : AIResponse;
  turn_nextStep : ConversationStep;
  turn_suggestedCategory : option string
}.

(** A reply that asks for input, with or without [nextStep] and
    [suggestions]. *)
Definition reply (t : ResponseType) (text : string)
    (next : option ConversationStep) (sugg : option (list string)) : AIResponse :=
  mkAIResponse t text next sugg None true None.

Definition confirmation_reply (d : CollectedData) (next : ConversationStep) : AIResponse :=
  reply type_confirmation
    (AI_PROMPTS.FINAL_CONFIRMATION (userName d) (issueDescription d)
       (confirmedCategory d) (userEmail d))
    (Some next)
    (Some ["Yes, create the ticket"; "No, let me modify something"]).

(** [.trim().replace(/\s+/g, ' ').substring(0, n)]. *)
Definition sanitize (n : nat) (userInput : string) : string :=
  Js.take n (Js.replace_runs Js.is_space " " (Js.trim userInput)).

Definition case_GREETING (userInput : string) (updatedData : CollectedData) : Turn :=
  let currentStep := GREETING in
  let nameResult := extractNameFromInput userInput in
  if needsClarification nameResult then
    if negb (String.eqb (name nameResult) "") && isSentence nameResult then
      mkTurn (set_potentialName (Some (name nameResult)) updatedData)
        (reply type_clarification
           ("I think I heard your name is " ++ dq ++ name nameResult ++ dq ++
            ". Is that correct? If not, please just tell me your name.")
           None (Some ["Yes, that's correct"; "No, my name is..."]))
        currentStep None
    else
      mkTurn updatedData
        (reply type_question
           (if isSentence nameResult
            then "I'd love to help you! Could you please just tell me your name first?"
            else "Please provide your name (at least 2 characters).")
           None None)
        currentStep None
  else if Js.truthy (potentialName updatedData)
          && (isAffirmative userInput || isNegative userInput) then
    if isAffirmative userInput then
      let updatedData :=
        set_potentialName None (set_userName (potentialName updatedData) updatedData) in
      let nextStep := getNextStep currentStep userInput updatedData in
      mkTurn updatedData
        (reply type_question (AI_PROMPTS.COLLECT_ISSUE (userName updatedData))
           (Some nextStep) None)
        nextStep None
    else
      mkTurn (set_potentialName None updatedData)
        (reply type_question "No problem! Please tell me your name." None None)
        currentStep None
  else
    let updatedData := set_userName (Some (name nameResult)) updatedData in
    let updatedData :=
      if Js.truthy (potentialName updatedData)
      then set_potentialName None updatedData else updatedData in
    let nextStep := getNextStep currentStep userInput updatedData in
    mkTurn updatedData
      (reply type_question (AI_PROMPTS.COLLECT_ISSUE (userName updatedData))
         (Some nextStep) None)
      nextStep None.

Definition case_COLLECT_ISSUE (userInput : string) (updatedData : CollectedData) : Turn :=
  let currentStep := COLLECT_ISSUE in
  let cleanedIssue := sanitize 1000 userInput in
  if String.length cleanedIssue <? 10 then
    mkTurn updatedData
      (reply type_question
         "Please provide more details about your issue (at least 10 characters)."
         None None)
      currentStep None
  else
    let updatedData := set_issueDescription (Some cleanedIssue) updatedData in
    let updatedData :=
      set_issueTitle
        (Some (Js.or_else (Some (Js.take 100 (hd "" (Js.split "." cleanedIssue))))
                 "Support Request"))
        updatedData in
    let nextStep := getNextStep currentStep userInput updatedData in
    mkTurn updatedData
      (reply type_question AI_PROMPTS.CLARIFY_DETAILS (Some nextStep) None)
      nextStep None.

Definition case_CLARIFY_DETAILS (userInput : string) (updatedData : CollectedData)
    : M Turn :=
  let currentStep := CLARIFY_DETAILS in
  let cleanedDetails := sanitize 500 userInput in
  let skipping := Js.includes (Js.toLowerCase userInput) "skip" in
  if (String.length cleanedDetails <? 5) && negb skipping then
    ret (mkTurn updatedData
           (reply type_question
              ("Please provide some additional details (at least 5 characters), or type "
               ++ dq ++ "skip" ++ dq ++ " if you have nothing to add.")
              None None)
           currentStep None)
  else
    let* details :=
      match additionalDetails updatedData with
      | Some d =>
          if details_truthy (Some d) then ret d
          else let* l := new_array in ret (DetailsArray l)
      | None => let* l := new_array in ret (DetailsArray l)
      end in
    let updatedData := set_additionalDetails (Some details) updatedData in
    let* _ :=
      if negb skipping && (5 <=? String.length cleanedDetails)
      then push details cleanedDetails else ret tt in
    let* joined := join details " " in
    let allText := Js.show (issueDescription updatedData) ++ " " ++ joined in
    let detectedCategory := category_name (detectCategory allText) in
    let updatedData := set_suggestedCategory (Some detectedCategory) updatedData in
    let nextStep := getNextStep currentStep userInput updatedData in
    ret (mkTurn updatedData
           (reply type_category_suggestion
              (AI_PROMPTS.SUGGEST_CATEGORY detectedCategory)
              (Some nextStep)
              (Some ["Yes, that's correct"; "No, different category"]))
           nextStep (Some detectedCategory)).

Definition case_SUGGEST_CATEGORY (userInput : string) (updatedData : CollectedData) : Turn :=
  let currentStep := SUGGEST_CATEGORY in
  let updatedData :=
    if isAffirmative userInput then
      set_confirmedCategory (suggestedCategory updatedData) updatedData
    else if isNegative userInput then
      set_confirmedCategory (Some (category_name GENERAL)) updatedData
    else
      set_confirmedCategory (Some (category_name (detectCategory userInput))) updatedData in
  let nextStep := getNextStep currentStep userInput updatedData in
  if negb (Js.truthy (userEmail updatedData)) then
    mkTurn updatedData
      (reply type_question AI_PROMPTS.COLLECT_EMAIL (Some COLLECT_NAME) None)
      COLLECT_NAME None
  else
    mkTurn updatedData (confirmation_reply updatedData nextStep) nextStep None.

Definition case_COLLECT_NAME (userInput : string) (updatedData : CollectedData) : Turn :=
  let currentStep := COLLECT_NAME in
  let cleanedEmail := Js.toLowerCase (Js.trim userInput) in
  if test emailRegex cleanedEmail then
    let updatedData := set_userEmail (Some cleanedEmail) updatedData in
    let nextStep := getNextStep currentStep userInput updatedData in
    mkTurn updatedData (confirmation_reply updatedData nextStep) nextStep None
  else
    mkTurn updatedData
      (reply type_question
         "Please provide a valid email address (e.g., john@example.com)." None None)
      currentStep None.

Definition case_FINAL_CONFIRMATION (userInput : string) (updatedData : CollectedData)
    : Turn :=
  if isAffirmative userInput then
    let updatedData :=
      set_issueTitle (Some (Js.or_else (issueTitle updatedData) "Support Request"))
        updatedData in
    let nextStep := TICKET_CREATED in
    mkTurn updatedData
      (mkAIResponse type_success
         ("✅ Perfect! I'm creating your support ticket now..." ++ nl ++ nl ++
          "Your ticket will be created with all the details we've collected. Our support team will review it and get back to you soon.")
         (Some nextStep) None None false (Some [("shouldCreateTicket", true)]))
      nextStep None
  else
    let nextStep := GREETING in
    mkTurn updatedData
      (reply type_question ("Let's start over. " ++ AI_PROMPTS.GREETING)
         (Some nextStep) None)
      nextStep None.

Definition case_default (updatedData : CollectedData) : Turn :=
  let nextStep := ERROR in
  mkTurn updatedData
    (reply type_error AI_PROMPTS.ERROR (Some nextStep) None)
    nextStep None.

(** The [switch (currentStep)] of the [try] block. *)
Definition dispatch (userInput : string) (currentStep : ConversationStep)
    (updatedData : CollectedData) : M Turn :=
  match currentStep with
  | GREETING => ret (case_GREETING userInput updatedData)
  | COLLECT_ISSUE => ret (case_COLLECT_ISSUE userInput updatedData)
  | CLARIFY_DETAILS => case_CLARIFY_DETAILS userInput updatedData
  | SUGGEST_CATEGORY => ret (case_SUGGEST_CATEGORY userInput updatedData)
  | COLLECT_NAME => ret (case_COLLECT_NAME userInput updatedData)
  | FINAL_CONFIRMATION => ret (case_FINAL_CONFIRMATION userInput updatedData)
  | _ => ret (case_default updatedData)
  end.

(** The rest of the [try] block: the updated conversation and the
    result.  [now] is what [new Date().toISOString()] gives. *)
Definition finish (now : string) (conversation : ConversationState) (t : Turn)
    : AIProcessResult :=
  let nextStep := turn_nextStep t in
  mkAIProcessResult
    (turn_aiResponse t)
    (mkConversationState
       (id conversation)
       nextStep
       (turn_updatedData t)
       (messages conversation)
       (step_eqb nextStep TICKET_CREATED)
       (createdTicketId conversation)
       (startedAt conversation)
       (if step_eqb nextStep TICKET_CREATED then Some now else None))
    (turn_suggestedCategory t).

(** The [catch] block. *)
Definition recover (conversation : ConversationState) : AIProcessResult :=
  mkAIProcessResult
    (reply type_error AI_PROMPTS.ERROR (Some ERROR) None)
    (with_currentStep ERROR conversation)
    None.

(** The [try] block, after the two statements before it: the
    destructuring of [conversation] and the spread [{ ...collectedData }],
    a new object with the same property values. *)
Definition try_body (now userInput : string) (conversation : ConversationState)
    : M AIProcessResult :=
  let currentStep := currentStep conversation in
  let collectedData := collectedData conversation in
  let updatedData := collectedData in
  let* t := dispatch userInput currentStep updatedData in
  ret (finish now conversation t).

Definition processAIMessage (now userInput : string) (conversation : ConversationState)
    : M AIProcessResult :=
  try_catch (try_body now userInput conversation)
            (fun _ => ret (recover conversation)).

(** ** Reading results *)

(** The value a call returned, if it returned. *)
Definition returned {A : Type} (o : completion A * heap) : option A :=
  match fst o with
  | Returns a => Some a
  | Throws _ => None
  end.

(** The conversation a call returned. *)
Definition state_after (o : completion AIProcessResult * heap)
    : option ConversationState :=
  option_map updatedConversation (returned o).

(** Successive calls, each on the conversation the previous one returned
    and in the store it left; the states are listed in order. *)
Fixpoint converse (turns : list (string * string)) (conversation : ConversationState)
    : M (list ConversationState) :=
  match turns with
  | [] => ret []
  | (now, userInput) :: later =>
      let* r := processAIMessage now userInput conversation in
      let* states := converse later (updatedConversation r) in
      ret (updatedConversation r :: states)
  end.

(** [collectedData: {}]. *)
Definition emptyData : CollectedData :=
  mkCollectedData None None None None None None None None.

(** How many keywords of an entry of [CATEGORY_PATTERNS] occur in the
    lower-cased text. *)
Definition hits (lowerText : string) (entry : TicketCategory * list string) : nat :=
  count_matches lowerText (snd entry).

(** The keyword list [CATEGORY_PATTERNS] has for a category. *)
Definition patterns_of (c : TicketCategory) : list string :=
  match List.find (fun entry => String.eqb (category_name (fst entry)) (category_name c))
          CATEGORY_PATTERNS with
  | Some entry => snd entry
  | None => []
  end.

(** Every case of the [switch] but CLARIFY_DETAILS computes its turn
    without reading or writing the store. *)
Definition pure_turn (userInput : string) (step : ConversationStep)
    (updatedData : CollectedData) : Turn :=
  match step with
  | GREETING => case_GREETING userInput updatedData
  | COLLECT_ISSUE => case_COLLECT_ISSUE userInput updatedData
  | SUGGEST_CATEGORY => case_SUGGEST_CATEGORY userInput updatedData
  | COLLECT_NAME => case_COLLECT_NAME userInput updatedData
  | FINAL_CONFIRMATION => case_FINAL_CONFIRMATION userInput updatedData
  | _ => case_default updatedData
  end.

(** ** Sample conversations *)

Definition sample_conversation (step : ConversationStep) (d : CollectedData)
    : ConversationState :=
  mkConversationState "c-1" step d [] false None "2024-01-01T00:00:00.000Z" None.

(** What a conversation has collected once the e-mail is known. *)
Definition sample_data (details : option Details) : CollectedData :=
  mkCollectedData (Some "John Smith") (Some "john@example.com")
    (Some "My app crashes on login") (Some "My app crashes on login")
    (Some "technical") (Some "technical") details None.

(** A finished conversation: complete, with its time of completion. *)
Definition sample_finished : ConversationState :=
  mkConversationState "c-1" TICKET_CREATED (sample_data None) [] true None
    "2024-01-01T00:00:00.000Z" (Some "2024-01-01T00:05:00.000Z").

Definition sample_now : string := "2024-01-02T00:00:00.000Z".

(** A store with one array, at reference 1. *)
Definition sample_heap : heap := {[ 1%positive := ["it started yesterday"] ]}.




(** ** Definitions used to state further properties *)

(** An array reference of the collected data is one the store knows. *)
Definition details_allocated (h : heap) (d : CollectedData) : Prop :=
  match additionalDetails d with
  | Some (DetailsArray l) => l ∈ dom h
  | _ => True
  end.

(** Every character of a string passes a test. *)
Fixpoint all_chars (p : ascii -> bool) (s : string) : bool :=
  match s with
  | EmptyString => true
  | String c t => p c && all_chars p t
  end.

(** No white-space character is followed by another one. *)
Fixpoint single_spaced (s : string) : bool :=
  match s with
  | String c ((String c' _) as t) =>
      negb (Js.is_space c && Js.is_space c') && single_spaced t
  | _ => true
  end.

(** A character of a cleaned name: a word character, a plain space, a
    hyphen, an apostrophe or a period. *)
Definition clean_name_char (c : ascii) : bool :=
  Js.is_word c || Ascii.eqb c " " || one_of "-'." c.

(** A character of normalised text: not white space, or a plain space. *)
Definition normal_char (c : ascii) : bool :=
  negb (Js.is_space c) || Ascii.eqb c " ".

(** A match attempt found something. *)
Definition succeeds {A : Type} (o : option A) : bool :=
  match o with
  | Some _ => true
  | None => false
  end.

(** A string does not start with white space. *)
Definition starts_clean (s : string) : bool :=
  match s with
  | String c _ => negb (Js.is_space c)
  | EmptyString => true
  end.

(** ** The enumerations as strings ([src/types]) *)

(** The string each member of [ConversationStep] stands for. *)
Definition step_name (s : ConversationStep) : string :=
  match s with
  | GREETING => "greeting"
  | COLLECT_NAME => "collect_name"
  | COLLECT_ISSUE => "collect_issue"
  | CLARIFY_DETAILS => "clarify_details"
  | SUGGEST_CATEGORY => "suggest_category"
  | CONFIRM_CATEGORY => "confirm_category"
  | FINAL_CONFIRMATION => "final_confirmation"
  | TICKET_CREATED => "ticket_created"
  | ERROR => "error"
  end.

(** The members [ConversationStepSchema] and [TicketCategorySchema]
    accept ([z.enum([...])]). *)
Definition ConversationStepSchema : list string :=
  ["greeting"; "collect_name"; "collect_issue"; "clarify_details";
   "suggest_category"; "confirm_category"; "final_confirmation";
   "ticket_created"; "error"].

Definition TicketCategorySchema : list string :=
  ["technical"; "billing"; "account"; "feature_request"; "bug_report";
   "general"; "other"].

(** ** What a conversation has collected, by step *)

(** How far along the conversation a step is: the number of groups of
    fields that have been collected when a conversation that started
    empty is on it. *)
Definition level (s : ConversationStep) : nat :=
  match s with
  | GREETING | ERROR => 0
  | COLLECT_ISSUE => 1
  | CLARIFY_DETAILS => 2
  | SUGGEST_CATEGORY => 3
  | COLLECT_NAME => 4
  | CONFIRM_CATEGORY | FINAL_CONFIRMATION | TICKET_CREATED => 5
  end.

(** The fields present at a level: the name from 1, description and title
    from 2, the suggested category from 3, the confirmed category from 4,
    the e-mail from 5. *)
Definition present (d : CollectedData) (k : nat) : Prop :=
  (1 <= k -> userName d <> None) /\
  (2 <= k -> issueDescription d <> None /\ issueTitle d <> None) /\
  (3 <= k -> suggestedCategory d <> None) /\
  (4 <= k -> confirmedCategory d <> None) /\
  (5 <= k -> userEmail d <> None).

(** Every field that is present holds a value the steps accept: a name
    and a title that are not empty, an e-mail that passes the check, a
    description of 10 to 1000 characters, categories of the enumeration
    other than [other]. *)
Definition valid_data (d : CollectedData) : Prop :=
  (forall n, userName d = Some n -> n <> "") /\
  (forall e, userEmail d = Some e -> test emailRegex e = true) /\
  (forall x, issueDescription d = Some x ->
             10 <= String.length x /\ String.length x <= 1000) /\
  (forall t, issueTitle d = Some t -> t <> "") /\
  (forall k, suggestedCategory d = Some k -> exists c, k = category_name c /\ c <> OTHER) /\
  (forall k, confirmedCategory d = Some k -> exists c, k = category_name c /\ c <> OTHER).

Definition conversation_invariant (c : ConversationState) : Prop :=
  valid_data (collectedData c) /\ present (collectedData c) (level (currentStep c)).

(** * Properties *)

(** Simplification that leaves the text functions folded. *)
Ltac case_simpl :=
  cbn -[sanitize Js.includes Js.toLowerCase Js.trim String.length detectCategory
        category_name Nat.leb Nat.ltb isAffirmative isNegative
        extractNameFromInput test Js.join Js.take Js.split].

(** ** The store monad *)

Lemma try_catch_returns {A : Type} (m : M A) (handler : string -> M A)
    (h h' : heap) (a : A) :
  m h = (Returns a, h') -> try_catch m handler h = (Returns a, h').
Proof. intros Hm. unfold try_catch. rewrite Hm. reflexivity. Qed.

Lemma try_catch_throws {A : Type} (m : M A) (handler : string -> M A)
    (h h' : heap) (e : string) :
  m h = (Throws e, h') -> try_catch m handler h = handler e h'.
Proof. intros Hm. unfold try_catch. rewrite Hm. reflexivity. Qed.

Lemma dispatch_pure (userInput : string) (step : ConversationStep)
    (updatedData : CollectedData) :
  step <> CLARIFY_DETAILS ->
  dispatch userInput step updatedData = ret (pure_turn userInput step updatedData).
Proof. destruct step; intros Hne; try reflexivity; congruence. Qed.

Lemma processAIMessage_pure (now userInput : string) (conversation : ConversationState)
    (h : heap) :
  currentStep conversation <> CLARIFY_DETAILS ->
  processAIMessage now userInput conversation h =
  (Returns (finish now conversation
              (pure_turn userInput (currentStep conversation)
                 (collectedData conversation))), h).
Proof.
  intros Hne. unfold processAIMessage, try_body.
  rewrite (dispatch_pure _ _ _ Hne). reflexivity.
Qed.

(** ** Name extraction on the two inputs of the specification *)

(** C8.  [extractNameFromInput] on "John Smith" gives the name as typed,
    not a sentence, no clarification needed; on "Hi, my name is John and
    I need help" it finds a sentence, extracts "John" and asks for
    clarification. *)
Theorem extractNameFromInput_examples :
  extractNameFromInput "John Smith" = mkNameResult "John Smith" false false /\
  extractNameFromInput "Hi, my name is John and I need help"
  = mkNameResult "John" true true.
Proof. split; vm_compute; reflexivity. Qed.

(** ** Steps without a handler *)

(** C10.  A conversation on CONFIRM_CATEGORY, TICKET_CREATED or ERROR falls
    to the default branch of the [switch] whatever the input: the reply
    has type [error] and the returned step is ERROR. *)
Theorem default_branch_steps (now userInput : string) (conversation : ConversationState)
    (h : heap) :
  currentStep conversation = CONFIRM_CATEGORY \/
  currentStep conversation = TICKET_CREATED \/
  currentStep conversation = ERROR ->
  dispatch userInput (currentStep conversation) (collectedData conversation) h
  = (Returns (case_default (collectedData conversation)), h) /\
  exists r,
    processAIMessage now userInput conversation h = (Returns r, h) /\
    type (assistantResponse r) = type_error /\
    currentStep (updatedConversation r) = ERROR.
Proof.
  intros Hstep. split.
  - destruct Hstep as [-> | [-> | ->]]; reflexivity.
  - eexists. split.
    + apply processAIMessage_pure.
      destruct Hstep as [-> | [-> | ->]]; discriminate.
    + destruct Hstep as [-> | [-> | ->]]; split; reflexivity.
Qed.

Lemma default_branch_steps_witness :
  exists r,
    processAIMessage "2024-01-02T00:00:00.000Z" "thanks"
      (sample_conversation TICKET_CREATED emptyData) ∅ = (Returns r, ∅) /\
    type (assistantResponse r) = type_error /\
    currentStep (updatedConversation r) = ERROR.
Proof.
  apply (default_branch_steps "2024-01-02T00:00:00.000Z" "thanks"
           (sample_conversation TICKET_CREATED emptyData) ∅).
  right. left. reflexivity.
Defined.

(** ** The final confirmation *)

(** C9.  On FINAL_CONFIRMATION a reply that is not affirmative restarts at
    GREETING and leaves the collected data (and the arrays it refers to)
    as they were; an affirmative reply moves to TICKET_CREATED and marks
    [shouldCreateTicket] in the reply's metadata. *)
Theorem final_confirmation_branches (now userInput : string)
    (conversation : ConversationState) (h : heap) :
  currentStep conversation = FINAL_CONFIRMATION ->
  exists r,
    processAIMessage now userInput conversation h = (Returns r, h) /\
    (isAffirmative userInput = false ->
       currentStep (updatedConversation r) = GREETING /\
       collectedData (updatedConversation r) = collectedData conversation) /\
    (isAffirmative userInput = true ->
       currentStep (updatedConversation r) = TICKET_CREATED /\
       metadata (assistantResponse r) = Some [("shouldCreateTicket", true)]).
Proof.
  intros Hstep. eexists. split.
  - apply processAIMessage_pure. rewrite Hstep. discriminate.
  - rewrite Hstep. unfold pure_turn, case_FINAL_CONFIRMATION.
    split; intros ->; split; reflexivity.
Qed.

Lemma final_confirmation_branches_witness :
  exists r,
    processAIMessage sample_now "no, let me modify something"
      (sample_conversation FINAL_CONFIRMATION (sample_data (Some (DetailsArray 1%positive))))
      sample_heap = (Returns r, sample_heap) /\
    currentStep (updatedConversation r) = GREETING /\
    collectedData (updatedConversation r) = sample_data (Some (DetailsArray 1%positive)).
Proof.
  destruct (final_confirmation_branches sample_now "no, let me modify something"
              (sample_conversation FINAL_CONFIRMATION
                 (sample_data (Some (DetailsArray 1%positive))))
              sample_heap eq_refl) as (r & Hr & Hno & _).
  exists r. split; [exact Hr | apply Hno; vm_compute; reflexivity].
Defined.

(** ** Leaving the category suggestion *)

(** What the SUGGEST_CATEGORY case returns as step, for every input: the
    step is overridden to COLLECT_NAME when no e-mail is known, and is what
    [getNextStep] gave, CONFIRM_CATEGORY, when one is. *)
Lemma suggest_category_step (now userInput : string) (conversation : ConversationState)
    (h : heap) :
  currentStep conversation = SUGGEST_CATEGORY ->
  exists r,
    processAIMessage now userInput conversation h = (Returns r, h) /\
    currentStep (updatedConversation r) =
    if Js.truthy (userEmail (collectedData conversation))
    then CONFIRM_CATEGORY else COLLECT_NAME.
Proof.
  intros Hstep. eexists. split.
  - apply processAIMessage_pure. rewrite Hstep. discriminate.
  - rewrite Hstep. unfold pure_turn, case_SUGGEST_CATEGORY.
    destruct (isAffirmative userInput), (isNegative userInput); cbn;
      destruct (Js.truthy (userEmail (collectedData conversation))); reflexivity.
Qed.

(** C1.  With an e-mail already collected, confirming the suggested
    category shows the final-confirmation prompt but returns the step
    CONFIRM_CATEGORY, not FINAL_CONFIRMATION; the user's answer to that
    prompt then falls to the default branch and ends in ERROR. *)
Theorem suggest_category_with_email :
  exists r r',
    processAIMessage sample_now "yes"
      (sample_conversation SUGGEST_CATEGORY (sample_data None)) ∅ = (Returns r, ∅) /\
    type (assistantResponse r) = type_confirmation /\
    currentStep (updatedConversation r) = CONFIRM_CATEGORY /\
    processAIMessage sample_now "yes" (updatedConversation r) ∅ = (Returns r', ∅) /\
    type (assistantResponse r') = type_error /\
    currentStep (updatedConversation r') = ERROR.
Proof.
  do 2 eexists. split; [vm_compute; reflexivity |].
  split; [reflexivity |]. split; [reflexivity |].
  split; [vm_compute; reflexivity |]. split; reflexivity.
Qed.

(** ** The store: what a call may write *)

Lemma step_eqb_eq (a b : ConversationStep) : step_eqb a b = true <-> a = b.
Proof. destruct a, b; cbn; split; intros H; congruence. Qed.

(** A call that is not on CLARIFY_DETAILS leaves the store as it was. *)
Lemma store_unchanged (now userInput : string) (conversation : ConversationState)
    (h : heap) :
  currentStep conversation <> CLARIFY_DETAILS ->
  snd (processAIMessage now userInput conversation h) = h.
Proof. intros Hne. rewrite (processAIMessage_pure _ _ _ _ Hne). reflexivity. Qed.

(** The CLARIFY_DETAILS case throws only when [additionalDetails] is a
    non-empty string, and then before any write. *)
Lemma case_CLARIFY_DETAILS_throws (userInput : string) (d : CollectedData)
    (h h1 : heap) (e : string) :
  case_CLARIFY_DETAILS userInput d h = (Throws e, h1) ->
  h1 = h /\ exists s, additionalDetails d = Some (DetailsString s) /\ s <> "".
Proof.
  unfold case_CLARIFY_DETAILS.
  destruct (_ && negb _); [discriminate |].
  destruct (additionalDetails d) as [[l | s] |] eqn:Hd; cbn [details_truthy];
    [| destruct (String.eqb s "") eqn:Hs |];
    case_simpl; destruct (negb _ && _); case_simpl; try discriminate;
    intros [= <- <-]; (split; [reflexivity |]);
    exists s; (split; [reflexivity |]); intros ->; discriminate.
Qed.

(** A call writes to no array but the one the collected data refer to:
    the other arrays of the store are as before. *)
Lemma case_CLARIFY_DETAILS_frame (userInput : string) (d : CollectedData)
    (h : heap) (l : loc) :
  l ∈ dom h ->
  additionalDetails d <> Some (DetailsArray l) ->
  snd (case_CLARIFY_DETAILS userInput d h) !! l = h !! l.
Proof.
  intros Hin Hother.
  assert (Hfresh : fresh (dom h) <> l).
  { intros <-. exact (is_fresh (dom h) Hin). }
  unfold case_CLARIFY_DETAILS.
  destruct (_ && negb _); [reflexivity |].
  destruct (additionalDetails d) as [[l0 | s] |] eqn:Hd; cbn [details_truthy];
    [| destruct (String.eqb s "") eqn:Hs |];
    case_simpl; destruct (negb _ && _); case_simpl;
    rewrite ?lookup_insert_ne; congruence.
Qed.

Lemma other_arrays_untouched (now userInput : string)
    (conversation : ConversationState) (h : heap) (l : loc) :
  l ∈ dom h ->
  additionalDetails (collectedData conversation) <> Some (DetailsArray l) ->
  snd (processAIMessage now userInput conversation h) !! l = h !! l.
Proof.
  intros Hin Hother.
  destruct (step_eqb (currentStep conversation) CLARIFY_DETAILS) eqn:Hstep.
  - apply step_eqb_eq in Hstep.
    rewrite <- (case_CLARIFY_DETAILS_frame userInput _ h l Hin Hother).
    unfold processAIMessage, try_catch, try_body, bind. rewrite Hstep. cbn [dispatch].
    destruct (case_CLARIFY_DETAILS userInput (collectedData conversation) h)
      as [[t | e] h1]; reflexivity.
  - rewrite store_unchanged; [reflexivity |].
    intros Heq. apply step_eqb_eq in Heq. congruence.
Qed.

Lemma try_body_returns (now userInput : string) (conversation : ConversationState)
    (h h' : heap) (r : AIProcessResult) :
  try_body now userInput conversation h = (Returns r, h') ->
  exists t,
    dispatch userInput (currentStep conversation) (collectedData conversation) h
    = (Returns t, h') /\
    r = finish now conversation t.
Proof.
  unfold try_body, bind.
  destruct (dispatch userInput (currentStep conversation)
              (collectedData conversation) h) as [[t | e] h1].
  - intros [= <- <-]. exists t. split; reflexivity.
  - discriminate.
Qed.

Lemma try_body_throws (now userInput : string) (conversation : ConversationState)
    (h h1 : heap) (e : string) :
  try_body now userInput conversation h = (Throws e, h1) ->
  h1 = h /\ currentStep conversation = CLARIFY_DETAILS /\
  exists s, additionalDetails (collectedData conversation) = Some (DetailsString s)
            /\ s <> "".
Proof.
  unfold try_body, bind.
  destruct (currentStep conversation) eqn:Hstep; try discriminate.
  cbn [dispatch].
  destruct (case_CLARIFY_DETAILS userInput (collectedData conversation) h)
    as [[t | e'] h2] eqn:Hcase.
  - discriminate.
  - intros [= <- <-].
    destruct (case_CLARIFY_DETAILS_throws _ _ _ _ _ Hcase) as [-> Hs].
    split; [reflexivity | split; [reflexivity | exact Hs]].
Qed.

(** ** Exceptions *)

(** C3.  A call never throws: it returns a result in every store.  When
    the [try] block throws, the result is the [error] reply with a
    conversation whose step is ERROR and whose other fields are those of
    the input; nothing was written to the store before the exception. *)
Theorem processAIMessage_never_throws (now userInput : string)
    (conversation : ConversationState) (h : heap) :
  (exists r h', processAIMessage now userInput conversation h = (Returns r, h')) /\
  (forall e h1,
     try_body now userInput conversation h = (Throws e, h1) ->
     exists r,
       processAIMessage now userInput conversation h = (Returns r, h) /\
       type (assistantResponse r) = type_error /\
       currentStep (updatedConversation r) = ERROR /\
       id (updatedConversation r) = id conversation /\
       collectedData (updatedConversation r) = collectedData conversation /\
       messages (updatedConversation r) = messages conversation /\
       isComplete (updatedConversation r) = isComplete conversation /\
       createdTicketId (updatedConversation r) = createdTicketId conversation /\
       startedAt (updatedConversation r) = startedAt conversation /\
       completedAt (updatedConversation r) = completedAt conversation).
Proof.
  split.
  - unfold processAIMessage, try_catch.
    destruct (try_body now userInput conversation h) as [[r | e] h1].
    + exists r, h1. reflexivity.
    + exists (recover conversation), h1. reflexivity.
  - intros e h1 Hthrow.
    destruct (try_body_throws _ _ _ _ _ _ Hthrow) as [-> _].
    exists (recover conversation). split.
    + unfold processAIMessage.
      rewrite (try_catch_throws _ _ _ _ _ Hthrow). reflexivity.
    + repeat split; reflexivity.
Qed.

(** The exception path can be taken: a string where the array of details
    should be makes [join] throw. *)
Lemma processAIMessage_never_throws_witness :
  exists r,
    processAIMessage sample_now "skip"
      (sample_conversation CLARIFY_DETAILS (sample_data (Some (DetailsString "none"))))
      sample_heap = (Returns r, sample_heap) /\
    type (assistantResponse r) = type_error /\
    currentStep (updatedConversation r) = ERROR /\
    collectedData (updatedConversation r) = sample_data (Some (DetailsString "none")).
Proof.
  destruct (processAIMessage_never_throws sample_now "skip"
              (sample_conversation CLARIFY_DETAILS
                 (sample_data (Some (DetailsString "none"))))
              sample_heap) as [_ Hcatch].
  destruct (Hcatch "TypeError: updatedData.additionalDetails.join is not a function"
              sample_heap) as (r & Hr & Hty & Hstep & _ & Hdata & _).
  - vm_compute. reflexivity.
  - exists r. repeat split; assumption.
Defined.

(** ** Completion flag and lifecycle markers *)

(** C4, as amended.  When the [try] block does not throw, [isComplete] of
    the returned conversation is true exactly when the returned step is
    TICKET_CREATED, whatever [isComplete] was in the input: the flag is
    computed anew from the returned step. *)
Theorem isComplete_recomputed (now userInput : string)
    (conversation : ConversationState) (h h' : heap) (r : AIProcessResult) :
  try_body now userInput conversation h = (Returns r, h') ->
  processAIMessage now userInput conversation h = (Returns r, h') /\
  (isComplete (updatedConversation r) = true <->
   currentStep (updatedConversation r) = TICKET_CREATED) /\
  (currentStep (updatedConversation r) <> TICKET_CREATED ->
   isComplete (updatedConversation r) = false).
Proof.
  intros Hbody. split; [apply try_catch_returns; exact Hbody |].
  destruct (try_body_returns _ _ _ _ _ _ Hbody) as (t & _ & ->).
  cbn [finish updatedConversation isComplete currentStep]. split.
  - apply step_eqb_eq.
  - intros Hne. destruct (step_eqb (turn_nextStep t) TICKET_CREATED) eqn:Heq.
    + apply step_eqb_eq in Heq. contradiction.
    + reflexivity.
Qed.

Lemma isComplete_recomputed_witness :
  let r := finish sample_now sample_finished
             (pure_turn "thanks" TICKET_CREATED (sample_data None)) in
  isComplete sample_finished = true /\
  processAIMessage sample_now "thanks" sample_finished ∅ = (Returns r, ∅) /\
  (isComplete (updatedConversation r) = true <->
   currentStep (updatedConversation r) = TICKET_CREATED) /\
  (currentStep (updatedConversation r) <> TICKET_CREATED ->
   isComplete (updatedConversation r) = false).
Proof.
  intros r. split; [reflexivity |].
  apply (isComplete_recomputed sample_now "thanks" sample_finished ∅ ∅ r).
  reflexivity.
Defined.

(** C4, the claim as stated fails: a conversation that is complete comes
    back from a call with [isComplete] false. *)
Lemma isComplete_not_monotonic :
  isComplete sample_finished = true /\
  option_map isComplete
    (state_after (processAIMessage sample_now "thanks" sample_finished ∅))
  = Some false.
Proof. split; vm_compute; reflexivity. Qed.

(** C5, as amended.  When the [try] block does not throw, [createdTicketId]
    and [startedAt] of the returned conversation are those of the input;
    [completedAt] is set anew on every call: the time of the call when the
    returned step is TICKET_CREATED, and absent otherwise. *)
Theorem lifecycle_markers (now userInput : string)
    (conversation : ConversationState) (h h' : heap) (r : AIProcessResult) :
  try_body now userInput conversation h = (Returns r, h') ->
  processAIMessage now userInput conversation h = (Returns r, h') /\
  createdTicketId (updatedConversation r) = createdTicketId conversation /\
  startedAt (updatedConversation r) = startedAt conversation /\
  completedAt (updatedConversation r) =
  if step_eqb (currentStep (updatedConversation r)) TICKET_CREATED
  then Some now else None.
Proof.
  intros Hbody. split; [apply try_catch_returns; exact Hbody |].
  destruct (try_body_returns _ _ _ _ _ _ Hbody) as (t & _ & ->).
  repeat split; reflexivity.
Qed.

Lemma lifecycle_markers_witness :
  let conversation := sample_conversation FINAL_CONFIRMATION (sample_data None) in
  let r := finish sample_now conversation
             (pure_turn "yes" FINAL_CONFIRMATION (sample_data None)) in
  processAIMessage sample_now "yes" conversation ∅ = (Returns r, ∅) /\
  createdTicketId (updatedConversation r) = createdTicketId conversation /\
  startedAt (updatedConversation r) = startedAt conversation /\
  completedAt (updatedConversation r) =
  if step_eqb (currentStep (updatedConversation r)) TICKET_CREATED
  then Some sample_now else None.
Proof.
  intros conversation r.
  apply (lifecycle_markers sample_now "yes" conversation ∅ ∅ r).
  reflexivity.
Defined.

(** C5, the claim as stated fails: a conversation whose [completedAt] is
    set comes back from a call that did not throw with [completedAt]
    absent. *)
Lemma completedAt_reset :
  completedAt sample_finished = Some "2024-01-01T00:05:00.000Z" /\
  (exists r, try_body sample_now "thanks" sample_finished ∅ = (Returns r, ∅)) /\
  option_map completedAt
    (state_after (processAIMessage sample_now "thanks" sample_finished ∅))
  = Some None.
Proof.
  split; [reflexivity |]. split.
  - eexists. vm_compute. reflexivity.
  - vm_compute. reflexivity.
Qed.

(** ** The caller's array *)

(** With an array of details already in the collected data, a detail of
    five characters or more is pushed onto that very array. *)
Lemma case_CLARIFY_DETAILS_push (userInput : string) (d : CollectedData)
    (h : heap) (l : loc) :
  additionalDetails d = Some (DetailsArray l) ->
  Js.includes (Js.toLowerCase userInput) "skip" = false ->
  5 <= String.length (sanitize 500 userInput) ->
  snd (case_CLARIFY_DETAILS userInput d h)
  = <[l := (h !!! l ++ [sanitize 500 userInput])%list]> h.
Proof.
  intros Hd Hskip Hlen. unfold case_CLARIFY_DETAILS.
  rewrite Hd, Hskip.
  apply Nat.leb_le in Hlen. rewrite Hlen.
  replace (String.length (sanitize 500 userInput) <? 5) with false
    by (symmetry; apply Nat.ltb_ge, Nat.leb_le, Hlen).
  case_simpl. reflexivity.
Qed.

Lemma processAIMessage_push (now userInput : string) (conversation : ConversationState)
    (h : heap) (l : loc) :
  currentStep conversation = CLARIFY_DETAILS ->
  additionalDetails (collectedData conversation) = Some (DetailsArray l) ->
  Js.includes (Js.toLowerCase userInput) "skip" = false ->
  5 <= String.length (sanitize 500 userInput) ->
  snd (processAIMessage now userInput conversation h)
  = <[l := (h !!! l ++ [sanitize 500 userInput])%list]> h.
Proof.
  intros Hstep Hd Hskip Hlen.
  rewrite <- (case_CLARIFY_DETAILS_push userInput _ h l Hd Hskip Hlen).
  unfold processAIMessage, try_catch, try_body, bind. rewrite Hstep. cbn [dispatch].
  destruct (case_CLARIFY_DETAILS userInput (collectedData conversation) h)
    as [[t | e] h1]; reflexivity.
Qed.

(** C2.  The spread copies the reference to the array of details, and
    [push] writes through it: after a call on CLARIFY_DETAILS with a
    detail to add, the array the caller's conversation refers to has one
    element more, while the caller's conversation still refers to it. *)
Theorem clarify_details_writes_callers_array :
  let conversation :=
    sample_conversation CLARIFY_DETAILS (sample_data (Some (DetailsArray 1%positive))) in
  let after :=
    processAIMessage sample_now "it happens every morning" conversation sample_heap in
  sample_heap !! 1%positive = Some ["it started yesterday"] /\
  snd after !! 1%positive = Some ["it started yesterday"; "it happens every morning"] /\
  option_map (fun s => additionalDetails (collectedData s)) (state_after after)
  = Some (additionalDetails (collectedData conversation)).
Proof. repeat split; vm_compute; reflexivity. Qed.

(** ** Category detection *)

Section DetectLoop.

Variable lowerText : string.

(** The loop from any starting pair: either no entry beat the starting
    count and the pair is unchanged, or the pair is the first entry with
    the greatest count, which is above the starting count. *)
Lemma detect_loop_from (entries : list (TicketCategory * list string))
    (m0 : nat) (c0 : TicketCategory) :
  let acc := fold_left (detect_step lowerText) entries (m0, c0) in
  (acc = (m0, c0) /\ forall e, In e entries -> hits lowerText e <= m0) \/
  (exists before winner after,
     entries = (before ++ winner :: after)%list /\
     acc = (hits lowerText winner, fst winner) /\
     m0 < hits lowerText winner /\
     (forall e, In e before -> hits lowerText e < hits lowerText winner) /\
     (forall e, In e after -> hits lowerText e <= hits lowerText winner)).
Proof.
  revert m0 c0. induction entries as [| e rest IH]; intros m0 c0; cbn [fold_left].
  - left. split; [reflexivity | intros e []].
  - assert (Hstep : detect_step lowerText (m0, c0) e
                   = if m0 <? hits lowerText e then (hits lowerText e, fst e) else (m0, c0))
      by reflexivity.
    rewrite Hstep. clear Hstep.
    destruct (m0 <? hits lowerText e) eqn:Hlt.
    + apply Nat.ltb_lt in Hlt.
      destruct (IH (hits lowerText e) (fst e)) as [[Hacc Hle] | (before & w & after & -> & Hacc & Hgt & Hb & Ha)].
      * right. exists [], e, rest. cbn [app].
        repeat split; [exact Hacc | exact Hlt | intros x [] | exact Hle].
      * right. exists (e :: before), w, after. cbn [app].
        repeat split; [exact Hacc | lia | | exact Ha].
        intros x [<- | Hin]; [exact Hgt | apply Hb, Hin].
    + apply Nat.ltb_ge in Hlt.
      destruct (IH m0 c0) as [[Hacc Hle] | (before & w & after & -> & Hacc & Hgt & Hb & Ha)].
      * left. split; [exact Hacc |].
        intros x [<- | Hin]; [exact Hlt | apply Hle, Hin].
      * right. exists (e :: before), w, after. cbn [app].
        repeat split; [exact Hacc | exact Hgt | | exact Ha].
        intros x [<- | Hin]; [lia | apply Hb, Hin].
Qed.

End DetectLoop.

(** C7.  [detectCategory] is a function of the text alone.  It gives
    GENERAL when no keyword of any category occurs in the lower-cased
    text.  Otherwise it gives the category of [CATEGORY_PATTERNS] whose
    keyword count is greatest, the earliest-declared one among equals:
    every category declared before it has strictly fewer matches and every
    one declared after it has no more.  A text in which a technical
    keyword occurs never gives GENERAL. *)
Theorem detectCategory_spec (text : string) :
  let hits := hits (Js.toLowerCase text) in
  List.map fst CATEGORY_PATTERNS
  = [TECHNICAL; BILLING; ACCOUNT; FEATURE_REQUEST; BUG_REPORT] /\
  (forall text', text' = text -> detectCategory text' = detectCategory text) /\
  ((forall e, In e CATEGORY_PATTERNS -> hits e = 0) ->
   detectCategory text = GENERAL) /\
  ((exists e, In e CATEGORY_PATTERNS /\ 0 < hits e) ->
   exists before winner after,
     CATEGORY_PATTERNS = (before ++ winner :: after)%list /\
     detectCategory text = fst winner /\
     0 < hits winner /\
     (forall e, In e before -> hits e < hits winner) /\
     (forall e, In e after -> hits e <= hits winner)) /\
  (0 < count_matches (Js.toLowerCase text) (patterns_of TECHNICAL) ->
   detectCategory text <> GENERAL).
Proof.
  intros hits.
  assert (Hsome : (exists e, In e CATEGORY_PATTERNS /\ 0 < hits e) ->
    exists before winner after,
      CATEGORY_PATTERNS = (before ++ winner :: after)%list /\
      detectCategory text = fst winner /\
      0 < hits winner /\
      (forall e, In e before -> hits e < hits winner) /\
      (forall e, In e after -> hits e <= hits winner)).
  { intros (e & Hin & Hpos). unfold detectCategory, detect_loop.
    destruct (detect_loop_from (Js.toLowerCase text) CATEGORY_PATTERNS 0 GENERAL)
      as [[_ Hle] | (before & w & after & Heq & Hacc & Hgt & Hb & Ha)].
    - specialize (Hle e Hin). unfold hits in Hpos. lia.
    - exists before, w, after. rewrite Hacc.
      apply Nat.ltb_lt in Hgt as Hgt'. rewrite Hgt'.
      repeat split; assumption. }
  split; [reflexivity |].
  split; [intros text' ->; reflexivity |].
  split; [| split; [exact Hsome |]].
  - intros Hzero. unfold detectCategory, detect_loop.
    destruct (detect_loop_from (Js.toLowerCase text) CATEGORY_PATTERNS 0 GENERAL)
      as [[-> _] | (before & w & after & Heq & _ & Hgt & _)].
    + reflexivity.
    + assert (Hin : In w CATEGORY_PATTERNS) by (rewrite Heq; apply in_elt).
      specialize (Hzero w Hin). unfold hits in Hzero. lia.
  - intros Htech.
    destruct Hsome as (before & w & after & Heq & -> & _).
    + eexists. split; [left; reflexivity | exact Htech].
    + assert (Hin : In w CATEGORY_PATTERNS) by (rewrite Heq; apply in_elt).
      cbn in Hin. intuition (subst; discriminate).
Qed.

Lemma detectCategory_spec_witness :
  detectCategory "The server gives a timeout" <> GENERAL /\
  detectCategory "hello there" = GENERAL.
Proof.
  split.
  - apply (detectCategory_spec "The server gives a timeout"). vm_compute. lia.
  - apply (detectCategory_spec "hello there").
    intros e Hin. cbn in Hin.
    intuition (subst; vm_compute; reflexivity).
Defined.

(** ** A complete conversation *)






Lemma case_SUGGEST_CATEGORY_step (userInput : string) (d : CollectedData) :
  turn_nextStep (case_SUGGEST_CATEGORY userInput d)
  = (if Js.truthy (userEmail d) then CONFIRM_CATEGORY else COLLECT_NAME) /\
  userEmail (turn_updatedData (case_SUGGEST_CATEGORY userInput d)) = userEmail d.
Proof.
  unfold case_SUGGEST_CATEGORY.
  destruct (isAffirmative userInput), (isNegative userInput); cbn;
    destruct (Js.truthy (userEmail d)); split; reflexivity.
Qed.



Lemma converse_cons (now userInput : string) (later : list (string * string))
    (conversation : ConversationState) (h h1 h2 : heap)
    (r : AIProcessResult) (states : list ConversationState) :
  processAIMessage now userInput conversation h = (Returns r, h1) ->
  converse later (updatedConversation r) h1 = (Returns states, h2) ->
  converse ((now, userInput) :: later) conversation h
  = (Returns (updatedConversation r :: states), h2).
Proof.
  intros Hcall Hlater. cbn [converse]. unfold bind.
  rewrite Hcall, Hlater. reflexivity.
Qed.




(** ** The classifiers on the examples of the specification *)

Example affirmative_examples :
  List.map isAffirmative ["yes"; "Yes, that's correct"; "sounds good"; ""]
  = [true; true; true; false].
Proof. vm_compute. reflexivity. Qed.

Example negative_examples :
  List.map isNegative ["no"; "that's wrong"; "not yet"; ""]
  = [true; true; true; false].
Proof. vm_compute. reflexivity. Qed.

Example email_examples :
  List.map (fun s => test emailRegex (Js.toLowerCase (Js.trim s)))
    ["user@example.com"; "user@example"; "not-an-email"]
  = [true; false; false].
Proof. vm_compute. reflexivity. Qed.

(** "My name is Alice" stages the name and stays on GREETING; "yes" then
    commits it and moves to COLLECT_ISSUE. *)
Example staged_name_example :
  option_map
    (List.map (fun s => (currentStep s, userName (collectedData s),
                         potentialName (collectedData s))))
    (returned (converse [(sample_now, "My name is Alice"); (sample_now, "yes")]
                 (sample_conversation GREETING emptyData) ∅))
  = Some [(GREETING, None, Some "Alice"); (COLLECT_ISSUE, Some "Alice", None)].
Proof. vm_compute. reflexivity. Qed.

(** * Further properties of the engine *)

(** ** What the CLARIFY_DETAILS case returns *)

(** Every way the case can return: a retry that changes nothing, or an
    advance to SUGGEST_CATEGORY on the array the data already refer to (or
    on a new one when they refer to none), with the detail pushed unless
    the input says "skip". *)
Lemma case_CLARIFY_DETAILS_returns (userInput : string) (d : CollectedData)
    (h h' : heap) (t : Turn) :
  case_CLARIFY_DETAILS userInput d h = (Returns t, h') ->
  let cleaned := sanitize 500 userInput in
  let skipping := Js.includes (Js.toLowerCase userInput) "skip" in
  ((String.length cleaned <? 5) && negb skipping = true /\
   turn_nextStep t = CLARIFY_DETAILS /\
   turn_updatedData t = d /\
   h' = h /\
   type (turn_aiResponse t) = type_question /\
   nextStep (turn_aiResponse t) = None /\
   turn_suggestedCategory t = None) \/
  ((String.length cleaned <? 5) && negb skipping = false /\
   exists l base,
     ((additionalDetails d = Some (DetailsArray l) /\ base = h) \/
      (details_truthy (additionalDetails d) = false /\
       l = fresh (dom h) /\ base = <[l := []]> h)) /\
     h' = (if negb skipping && (5 <=? String.length cleaned)
           then <[l := (base !!! l ++ [cleaned])%list]> base else base) /\
     turn_nextStep t = SUGGEST_CATEGORY /\
     turn_updatedData t
     = set_suggestedCategory
         (Some (category_name
                  (detectCategory
                     (Js.show (issueDescription d) ++ " " ++ Js.join " " (h' !!! l)))))
         (set_additionalDetails (Some (DetailsArray l)) d) /\
     turn_suggestedCategory t = suggestedCategory (turn_updatedData t) /\
     type (turn_aiResponse t) = type_category_suggestion /\
     nextStep (turn_aiResponse t) = Some SUGGEST_CATEGORY).
Proof.
  intros Hcase cleaned skipping. subst cleaned skipping.
  unfold case_CLARIFY_DETAILS in Hcase.
  destruct (_ && negb _) eqn:Hshort in Hcase |- *.
  - injection Hcase as <- <-. left. repeat split; reflexivity.
  - right. split; [reflexivity |].
    destruct (additionalDetails d) as [[l | s] |] eqn:Hd; cbn [details_truthy] in Hcase;
      [| destruct (String.eqb s "") eqn:Hs |];
      revert Hcase; case_simpl; destruct (negb _ && (5 <=? _)); case_simpl;
      try discriminate; intros [= <- <-].
    all: try (exists l, h; split; [left; split; reflexivity |];
              repeat split; reflexivity).
    all: exists (fresh (dom h)), (<[fresh (dom h) := []]> h);
      (split; [right; cbn [details_truthy]; rewrite ?Hs; repeat split; reflexivity |]);
      repeat split; reflexivity.
Qed.

(** ** The two ways a call ends *)

Lemma dispatch_returns (userInput : string) (step : ConversationStep)
    (d : CollectedData) (h h' : heap) (t : Turn) :
  dispatch userInput step d h = (Returns t, h') ->
  (step <> CLARIFY_DETAILS /\ t = pure_turn userInput step d /\ h' = h) \/
  (step = CLARIFY_DETAILS /\ case_CLARIFY_DETAILS userInput d h = (Returns t, h')).
Proof.
  destruct step; cbn [dispatch]; try (intros [= <- <-]; left;
    split; [discriminate | split; reflexivity]).
  intros Hcase. right. split; [reflexivity | exact Hcase].
Qed.

(** A call either returns what the [try] block built from the turn of its
    case, or, when the case threw, what the [catch] block builds. *)
Lemma processAIMessage_outcome (now userInput : string)
    (conversation : ConversationState) (h : heap) :
  (exists t h',
     dispatch userInput (currentStep conversation) (collectedData conversation) h
     = (Returns t, h') /\
     processAIMessage now userInput conversation h
     = (Returns (finish now conversation t), h')) \/
  (processAIMessage now userInput conversation h = (Returns (recover conversation), h) /\
   currentStep conversation = CLARIFY_DETAILS /\
   exists s, additionalDetails (collectedData conversation) = Some (DetailsString s)
             /\ s <> "").
Proof.
  destruct (try_body now userInput conversation h) as [[r | e] h1] eqn:Hbody.
  - left. destruct (try_body_returns _ _ _ _ _ _ Hbody) as (t & Hd & ->).
    exists t, h1. split; [exact Hd |].
    unfold processAIMessage. apply try_catch_returns. exact Hbody.
  - right. destruct (try_body_throws _ _ _ _ _ _ Hbody) as (-> & Hstep & Hs).
    split; [| split; assumption].
    unfold processAIMessage. rewrite (try_catch_throws _ _ _ _ _ Hbody). reflexivity.
Qed.

Ltac split_ifs :=
  repeat match goal with
         | |- context [if ?b then _ else _] => destruct b eqn:?
         end.

(** ** The transitions the engine makes *)

(** The step a case hands back, for the cases that do not use the store. *)
Lemma pure_turn_step (userInput : string) (step : ConversationStep) (d : CollectedData) :
  step <> CLARIFY_DETAILS ->
  let next := turn_nextStep (pure_turn userInput step d) in
  match step with
  | GREETING => next = GREETING \/ next = COLLECT_ISSUE
  | COLLECT_ISSUE => next = COLLECT_ISSUE \/ next = CLARIFY_DETAILS
  | SUGGEST_CATEGORY => next = COLLECT_NAME \/ next = CONFIRM_CATEGORY
  | COLLECT_NAME => next = COLLECT_NAME \/ next = FINAL_CONFIRMATION
  | FINAL_CONFIRMATION => next = TICKET_CREATED \/ next = GREETING
  | _ => next = ERROR
  end.
Proof.
  intros Hne. destruct step; cbn [pure_turn]; try reflexivity; try congruence.
  - unfold case_GREETING. split_ifs; cbn; auto.
  - unfold case_COLLECT_NAME. split_ifs; cbn; auto.
  - unfold case_COLLECT_ISSUE. split_ifs; cbn; auto.
  - destruct (case_SUGGEST_CATEGORY_step userInput d) as [-> _]. split_ifs; auto.
  - unfold case_FINAL_CONFIRMATION. split_ifs; cbn; auto.
Qed.

(** X1.  The edges of the conversation: whatever the input, the stored
    data and the store, a call returns, and the step it returns is the
    current step again or one of the successors listed here for it.
    GREETING, COLLECT_ISSUE, CLARIFY_DETAILS and COLLECT_NAME may repeat;
    CLARIFY_DETAILS may end in ERROR; FINAL_CONFIRMATION goes back to
    GREETING or on to TICKET_CREATED; the remaining steps go to ERROR. *)
Theorem returned_step_is_an_edge (now userInput : string)
    (conversation : ConversationState) (h : heap) :
  exists r h',
    processAIMessage now userInput conversation h = (Returns r, h') /\
    let next := currentStep (updatedConversation r) in
    match currentStep conversation with
    | GREETING => next = GREETING \/ next = COLLECT_ISSUE
    | COLLECT_ISSUE => next = COLLECT_ISSUE \/ next = CLARIFY_DETAILS
    | CLARIFY_DETAILS =>
        next = CLARIFY_DETAILS \/ next = SUGGEST_CATEGORY \/ next = ERROR
    | SUGGEST_CATEGORY => next = COLLECT_NAME \/ next = CONFIRM_CATEGORY
    | COLLECT_NAME => next = COLLECT_NAME \/ next = FINAL_CONFIRMATION
    | FINAL_CONFIRMATION => next = TICKET_CREATED \/ next = GREETING
    | CONFIRM_CATEGORY | TICKET_CREATED | ERROR => next = ERROR
    end.
Proof.
  destruct (processAIMessage_outcome now userInput conversation h)
    as [(t & h' & Hd & Hcall) | (Hcall & Hstep & _)].
  - exists (finish now conversation t), h'. split; [exact Hcall |].
    cbn [finish updatedConversation currentStep].
    destruct (dispatch_returns _ _ _ _ _ _ Hd) as [(Hne & -> & _) | (Hstep & Hcase)].
    + pose proof (pure_turn_step userInput _ (collectedData conversation) Hne) as Hp.
      destruct (currentStep conversation); try exact Hp. congruence.
    + rewrite Hstep.
      destruct (case_CLARIFY_DETAILS_returns _ _ _ _ _ Hcase)
        as [(_ & -> & _) | (_ & l & base & _ & _ & -> & _)]; auto.
  - exists (recover conversation), h. split; [exact Hcall |].
    rewrite Hstep. cbn. auto.
Qed.

(** ** The reply and the returned step agree *)

Lemma pure_turn_reply (userInput : string) (step : ConversationStep) (d : CollectedData) :
  step <> CLARIFY_DETAILS ->
  let t := pure_turn userInput step d in
  let reply := turn_aiResponse t in
  let next := turn_nextStep t in
  ((nextStep reply = None /\ next = step) \/ nextStep reply = Some next) /\
  (type reply = type_error <-> next = ERROR) /\
  (type reply = type_success <-> next = TICKET_CREATED) /\
  (requiresInput reply = false <-> next = TICKET_CREATED) /\
  metadata reply
  = (if step_eqb next TICKET_CREATED then Some [("shouldCreateTicket", true)] else None).
Proof.
  intros Hne.
  destruct step; cbn [pure_turn]; try congruence;
    try (cbn; repeat split; auto; discriminate).
  - unfold case_GREETING. split_ifs; cbn; repeat split; auto; discriminate.
  - unfold case_COLLECT_NAME. split_ifs; cbn; repeat split; auto; discriminate.
  - unfold case_COLLECT_ISSUE. split_ifs; cbn; repeat split; auto; discriminate.
  - unfold case_SUGGEST_CATEGORY. split_ifs; cbn; repeat split; auto; discriminate.
  - unfold case_FINAL_CONFIRMATION. split_ifs; cbn; repeat split; auto; discriminate.
Qed.

(** X2.  The reply never names a step other than the one the returned
    conversation is on: its [nextStep] is that step, or it is absent, and
    it is absent only when the conversation stays on the step it was on.
    The reply is of type [error] exactly when the returned step is ERROR. *)
Theorem reply_names_returned_step (now userInput : string)
    (conversation : ConversationState) (h : heap) :
  exists r h',
    processAIMessage now userInput conversation h = (Returns r, h') /\
    ((nextStep (assistantResponse r) = None /\
      currentStep (updatedConversation r) = currentStep conversation) \/
     nextStep (assistantResponse r) = Some (currentStep (updatedConversation r))) /\
    (type (assistantResponse r) = type_error <->
     currentStep (updatedConversation r) = ERROR).
Proof.
  destruct (processAIMessage_outcome now userInput conversation h)
    as [(t & h' & Hd & Hcall) | (Hcall & Hstep & _)].
  - exists (finish now conversation t), h'. split; [exact Hcall |].
    cbn [finish updatedConversation assistantResponse currentStep].
    destruct (dispatch_returns _ _ _ _ _ _ Hd) as [(Hne & -> & _) | (Hstep & Hcase)].
    + destruct (pure_turn_reply userInput _ (collectedData conversation) Hne)
        as (Hnext & Herr & _). split; assumption.
    + rewrite Hstep.
      destruct (case_CLARIFY_DETAILS_returns _ _ _ _ _ Hcase)
        as [(_ & -> & _ & _ & -> & -> & _) | (_ & l & base & _ & _ & -> & _ & _ & -> & ->)].
      * split; [left; split; reflexivity | split; discriminate].
      * split; [right; reflexivity | split; discriminate].
  - exists (recover conversation), h. split; [exact Hcall |].
    cbn. split; [right; reflexivity | split; reflexivity].
Qed.

(** X3.  The signals a caller acts on come together: the reply has type
    [success], asks for no further input and carries the metadata
    [shouldCreateTicket: true] exactly when the returned step is
    TICKET_CREATED; in every other case it asks for input and has no
    metadata. *)
Theorem ticket_signals_agree (now userInput : string)
    (conversation : ConversationState) (h : heap) :
  exists r h',
    processAIMessage now userInput conversation h = (Returns r, h') /\
    (type (assistantResponse r) = type_success <->
     currentStep (updatedConversation r) = TICKET_CREATED) /\
    (requiresInput (assistantResponse r) = false <->
     currentStep (updatedConversation r) = TICKET_CREATED) /\
    metadata (assistantResponse r)
    = (if step_eqb (currentStep (updatedConversation r)) TICKET_CREATED
       then Some [("shouldCreateTicket", true)] else None).
Proof.
  destruct (processAIMessage_outcome now userInput conversation h)
    as [(t & h' & Hd & Hcall) | (Hcall & Hstep & _)].
  - exists (finish now conversation t), h'. split; [exact Hcall |].
    cbn [finish updatedConversation assistantResponse currentStep].
    destruct (dispatch_returns _ _ _ _ _ _ Hd) as [(Hne & -> & _) | (Hstep & Hcase)].
    + destruct (pure_turn_reply userInput _ (collectedData conversation) Hne)
        as (_ & _ & Hsucc & Hreq & Hmeta). repeat split; try assumption;
        first [apply Hsucc | apply Hreq].
    + unfold case_CLARIFY_DETAILS in Hcase. revert Hcase.
      destruct (_ && negb _).
      * intros [= <- <-]. cbn. repeat split; discriminate.
      * destruct (additionalDetails (collectedData conversation)) as [[l | s] |];
          cbn [details_truthy]; [| destruct (String.eqb s "") |];
          case_simpl; destruct (negb _ && (5 <=? _)); case_simpl;
          try discriminate; intros [= <- <-]; cbn; repeat split; discriminate.
  - exists (recover conversation), h. split; [exact Hcall |].
    cbn. repeat split; discriminate.
Qed.

(** ** Steps from which nothing more happens *)

(** X4.  CONFIRM_CATEGORY, TICKET_CREATED and ERROR are dead ends: from a
    conversation on one of them, every further call, whatever is typed and
    however many calls follow, returns step ERROR with [isComplete] false,
    the collected data as they were and the store untouched.  A finished
    conversation can therefore never reach TICKET_CREATED a second time. *)
Theorem error_is_absorbing (turns : list (string * string))
    (conversation : ConversationState) (h : heap) :
  currentStep conversation = CONFIRM_CATEGORY \/
  currentStep conversation = TICKET_CREATED \/
  currentStep conversation = ERROR ->
  exists states,
    converse turns conversation h = (Returns states, h) /\
    List.length states = List.length turns /\
    Forall (fun s => currentStep s = ERROR /\ isComplete s = false /\
                     collectedData s = collectedData conversation) states.
Proof.
  revert conversation. induction turns as [| [now userInput] later IH];
    intros conversation Hstep.
  - exists []. repeat split. constructor.
  - set (r := finish now conversation (case_default (collectedData conversation))).
    assert (Hcall : processAIMessage now userInput conversation h = (Returns r, h)).
    { rewrite processAIMessage_pure
        by (destruct Hstep as [-> | [-> | ->]]; discriminate).
      destruct Hstep as [-> | [-> | ->]]; reflexivity. }
    destruct (IH (updatedConversation r)) as (states & Hlater & Hlen & Hall).
    { right. right. reflexivity. }
    exists (updatedConversation r :: states). split.
    + apply converse_cons with (h1 := h); assumption.
    + split; [cbn; rewrite Hlen; reflexivity |].
      constructor; [repeat split; reflexivity | exact Hall].
Qed.

Lemma error_is_absorbing_witness :
  exists states,
    converse [(sample_now, "thanks"); (sample_now, "yes"); (sample_now, "John Smith")]
      sample_finished ∅ = (Returns states, ∅) /\
    List.length states = 3 /\
    Forall (fun s => currentStep s = ERROR /\ isComplete s = false /\
                     collectedData s = sample_data None) states.
Proof.
  apply (error_is_absorbing
           [(sample_now, "thanks"); (sample_now, "yes"); (sample_now, "John Smith")]
           sample_finished ∅).
  right. left. reflexivity.
Defined.

(** ** Which step writes which field *)

Lemma pure_turn_frame (userInput : string) (step : ConversationStep) (d : CollectedData) :
  step <> CLARIFY_DETAILS ->
  let d' := turn_updatedData (pure_turn userInput step d) in
  (step <> GREETING -> userName d' = userName d /\ potentialName d' = potentialName d) /\
  (step <> COLLECT_NAME -> userEmail d' = userEmail d) /\
  (step <> COLLECT_ISSUE -> issueDescription d' = issueDescription d) /\
  (step <> COLLECT_ISSUE -> step <> FINAL_CONFIRMATION -> issueTitle d' = issueTitle d) /\
  suggestedCategory d' = suggestedCategory d /\
  additionalDetails d' = additionalDetails d /\
  (step <> SUGGEST_CATEGORY -> confirmedCategory d' = confirmedCategory d).
Proof.
  intros Hne.
  destruct step; cbn [pure_turn]; try congruence;
    try (cbn; repeat split; congruence).
  - unfold case_GREETING. split_ifs; cbn; repeat split; congruence.
  - unfold case_COLLECT_NAME. split_ifs; cbn; repeat split; congruence.
  - unfold case_COLLECT_ISSUE. split_ifs; cbn; repeat split; congruence.
  - unfold case_SUGGEST_CATEGORY. split_ifs; cbn; repeat split; congruence.
  - unfold case_FINAL_CONFIRMATION. split_ifs; cbn; repeat split; congruence.
Qed.

(** X5.  Each field of the collected data has its step: a call changes
    [userName] and [potentialName] only on GREETING, [userEmail] only on
    COLLECT_NAME, [issueDescription] only on COLLECT_ISSUE, [issueTitle]
    only on COLLECT_ISSUE and FINAL_CONFIRMATION, [suggestedCategory] and
    [additionalDetails] only on CLARIFY_DETAILS, and [confirmedCategory]
    only on SUGGEST_CATEGORY. *)
Theorem fields_have_their_step (now userInput : string)
    (conversation : ConversationState) (h : heap) :
  exists r h',
    processAIMessage now userInput conversation h = (Returns r, h') /\
    let step := currentStep conversation in
    let d := collectedData conversation in
    let d' := collectedData (updatedConversation r) in
    (step <> GREETING -> userName d' = userName d /\ potentialName d' = potentialName d) /\
    (step <> COLLECT_NAME -> userEmail d' = userEmail d) /\
    (step <> COLLECT_ISSUE -> issueDescription d' = issueDescription d) /\
    (step <> COLLECT_ISSUE -> step <> FINAL_CONFIRMATION ->
     issueTitle d' = issueTitle d) /\
    (step <> CLARIFY_DETAILS ->
     suggestedCategory d' = suggestedCategory d /\
     additionalDetails d' = additionalDetails d) /\
    (step <> SUGGEST_CATEGORY -> confirmedCategory d' = confirmedCategory d).
Proof.
  destruct (processAIMessage_outcome now userInput conversation h)
    as [(t & h' & Hd & Hcall) | (Hcall & Hstep & _)].
  - exists (finish now conversation t), h'. split; [exact Hcall |].
    cbn [finish updatedConversation collectedData].
    destruct (dispatch_returns _ _ _ _ _ _ Hd) as [(Hne & -> & _) | (Hstep & Hcase)].
    + destruct (pure_turn_frame userInput _ (collectedData conversation) Hne)
        as (H1 & H2 & H3 & H4 & H5 & H6 & H7).
      repeat split; auto; first [apply H1 | idtac]; assumption.
    + rewrite Hstep.
      destruct (case_CLARIFY_DETAILS_returns _ _ _ _ _ Hcase)
        as [(_ & _ & -> & _) | (_ & l & base & _ & _ & _ & -> & _)];
        cbn; repeat split; congruence.
  - exists (recover conversation), h. split; [exact Hcall |].
    cbn. repeat split; reflexivity.
Qed.

(** ** What is collected stays collected *)

Lemma truthy_is_some (o : option string) : Js.truthy o = true -> o <> None.
Proof. destruct o; [discriminate | cbn; discriminate]. Qed.

Lemma pure_turn_keeps (userInput : string) (step : ConversationStep) (d : CollectedData) :
  step <> CLARIFY_DETAILS ->
  let d' := turn_updatedData (pure_turn userInput step d) in
  (userName d <> None -> userName d' <> None) /\
  (userEmail d <> None -> userEmail d' <> None) /\
  (issueDescription d <> None -> issueDescription d' <> None) /\
  (issueTitle d <> None -> issueTitle d' <> None).
Proof.
  intros Hne.
  destruct step; cbn [pure_turn]; try congruence;
    try solve [cbn; repeat split; auto].
  - unfold case_GREETING. split_ifs; cbn; repeat split; auto; try (intros; discriminate).
    intros _. apply truthy_is_some.
    match goal with H : Js.truthy _ && _ = true |- _ =>
      apply andb_true_iff in H; apply H end.
  - unfold case_COLLECT_NAME. split_ifs; cbn; repeat split; auto; intros; discriminate.
  - unfold case_COLLECT_ISSUE. split_ifs; cbn; repeat split; auto; intros; discriminate.
  - unfold case_SUGGEST_CATEGORY. split_ifs; cbn; repeat split; auto.
  - unfold case_FINAL_CONFIRMATION. split_ifs; cbn; repeat split; auto; intros; discriminate.
Qed.

(** X6.  A call never removes [userName], [userEmail], [issueDescription],
    [issueTitle], [suggestedCategory] or [additionalDetails] from the
    collected data: what was present before it is present after it, on
    every step and also when the call ends in the [catch] block.  An
    array of details stays the same array: the returned data hold the
    reference the input data held. *)
Theorem collected_fields_are_kept (now userInput : string)
    (conversation : ConversationState) (h : heap) :
  exists r h',
    processAIMessage now userInput conversation h = (Returns r, h') /\
    let d := collectedData conversation in
    let d' := collectedData (updatedConversation r) in
    (userName d <> None -> userName d' <> None) /\
    (userEmail d <> None -> userEmail d' <> None) /\
    (issueDescription d <> None -> issueDescription d' <> None) /\
    (issueTitle d <> None -> issueTitle d' <> None) /\
    (suggestedCategory d <> None -> suggestedCategory d' <> None) /\
    (additionalDetails d <> None -> additionalDetails d' <> None) /\
    (forall l, additionalDetails d = Some (DetailsArray l) ->
               additionalDetails d' = Some (DetailsArray l)).
Proof.
  destruct (processAIMessage_outcome now userInput conversation h)
    as [(t & h' & Hd & Hcall) | (Hcall & Hstep & _)].
  - exists (finish now conversation t), h'. split; [exact Hcall |].
    cbn [finish updatedConversation collectedData].
    destruct (dispatch_returns _ _ _ _ _ _ Hd) as [(Hne & -> & _) | (Hstep & Hcase)].
    + destruct (pure_turn_keeps userInput _ (collectedData conversation) Hne)
        as (H1 & H2 & H3 & H4).
      destruct (pure_turn_frame userInput _ (collectedData conversation) Hne)
        as (_ & _ & _ & _ & -> & -> & _).
      repeat split; auto.
    + destruct (case_CLARIFY_DETAILS_returns _ _ _ _ _ Hcase)
        as [(_ & _ & -> & _) | (_ & l & base & Hbase & _ & _ & -> & _)].
      * repeat split; auto.
      * cbn. repeat split; auto; try discriminate.
        intros l0 Hl0.
        destruct Hbase as [(Hl & _) | (Hfalsy & _)].
        -- congruence.
        -- rewrite Hl0 in Hfalsy. discriminate.
  - exists (recover conversation), h. split; [exact Hcall |].
    cbn. repeat split; auto.
Qed.

(** ** The store grows by at most one array *)

(** X7.  When the array the collected data refer to is in the store, a
    call leaves every array of the store in place, adds at most one new
    array, at a reference that was not in use, and returns data whose
    array is in the store: no reference is left dangling. *)
Theorem store_stays_well_formed (now userInput : string)
    (conversation : ConversationState) (h : heap) :
  details_allocated h (collectedData conversation) ->
  exists r h',
    processAIMessage now userInput conversation h = (Returns r, h') /\
    details_allocated h' (collectedData (updatedConversation r)) /\
    dom h ⊆ dom h' /\
    (dom h' = dom h \/ dom h' = {[fresh (dom h)]} ∪ dom h).
Proof.
  intros Hwf.
  destruct (processAIMessage_outcome now userInput conversation h)
    as [(t & h' & Hd & Hcall) | (Hcall & Hstep & _)].
  - exists (finish now conversation t), h'. split; [exact Hcall |].
    cbn [finish updatedConversation collectedData].
    destruct (dispatch_returns _ _ _ _ _ _ Hd) as [(Hne & -> & ->) | (Hstep & Hcase)].
    + split; [| split; [reflexivity | left; reflexivity]].
      unfold details_allocated in *.
      destruct (pure_turn_frame userInput _ (collectedData conversation) Hne)
        as (_ & _ & _ & _ & _ & -> & _). exact Hwf.
    + destruct (case_CLARIFY_DETAILS_returns _ _ _ _ _ Hcase)
        as [(_ & _ & -> & -> & _) | (_ & l & base & Hbase & -> & _ & -> & _)].
      * split; [exact Hwf | split; [reflexivity | left; reflexivity]].
      * unfold details_allocated in *. cbn [additionalDetails set_suggestedCategory
          set_additionalDetails].
        destruct Hbase as [(Hl & ->) | (_ & -> & ->)].
        -- rewrite Hl in Hwf.
           destruct (negb _ && (5 <=? _)); rewrite ?dom_insert_L;
             (split; [| split; [| left]]); clear -Hwf;
             set_unfold; intuition (subst; auto).
        -- destruct (negb _ && (5 <=? _)); rewrite ?dom_insert_L;
             (split; [| split; [| right]]); clear;
             set_unfold; intuition (subst; auto).
  - exists (recover conversation), h. split; [exact Hcall |].
    split; [exact Hwf | split; [reflexivity | left; reflexivity]].
Qed.

Lemma store_stays_well_formed_witness :
  let conversation :=
    sample_conversation CLARIFY_DETAILS (sample_data (Some (DetailsArray 1%positive))) in
  exists r h',
    processAIMessage sample_now "it happens every morning" conversation sample_heap
    = (Returns r, h') /\
    details_allocated h' (collectedData (updatedConversation r)) /\
    dom sample_heap ⊆ dom h' /\
    (dom h' = dom sample_heap \/ dom h' = {[fresh (dom sample_heap)]} ∪ dom sample_heap).
Proof.
  intros conversation.
  apply (store_stays_well_formed sample_now "it happens every morning"
           conversation sample_heap).
  unfold details_allocated, conversation, sample_heap. cbn.
  rewrite dom_singleton_L. apply elem_of_singleton. reflexivity.
Defined.

(** * Properties of the text functions *)

(** ** Substrings *)

Lemma append_cons (c : ascii) (a b : string) : String c a ++ b = String c (a ++ b).
Proof. reflexivity. Qed.

Lemma append_nil (b : string) : "" ++ b = b.
Proof. reflexivity. Qed.

Lemma startsWith_app (p b : string) : Js.startsWith p (p ++ b) = true.
Proof.
  induction p as [| c p IH]; [reflexivity |].
  rewrite append_cons. cbn [Js.startsWith].
  rewrite Ascii.eqb_refl. exact IH.
Qed.

Lemma startsWith_inv (p s : string) :
  Js.startsWith p s = true -> exists b, s = p ++ b.
Proof.
  revert s. induction p as [| c p IH]; intros s H.
  - exists s. reflexivity.
  - destruct s as [| c' s]; [discriminate |]. cbn [Js.startsWith] in H.
    apply andb_true_iff in H as [Hc Hp]. apply Ascii.eqb_eq in Hc as ->.
    destruct (IH s Hp) as [b ->]. exists b. reflexivity.
Qed.

Lemma includes_here (s p : string) : Js.startsWith p s = true -> Js.includes s p = true.
Proof. intros H. destruct s; cbn [Js.includes]; rewrite H; reflexivity. Qed.

Lemma includes_later (c : ascii) (s p : string) :
  Js.includes s p = true -> Js.includes (String c s) p = true.
Proof. intros H. cbn [Js.includes]. rewrite H. apply orb_true_r. Qed.

(** [s.includes(p)] holds exactly when [s] is [a ++ p ++ b] for some [a]
    and [b]. *)
Lemma includes_spec (s p : string) :
  Js.includes s p = true <-> exists a b, s = a ++ p ++ b.
Proof.
  split.
  - induction s as [| c s IH]; intros H.
    + cbn [Js.includes] in H. rewrite orb_false_r in H.
      destruct (startsWith_inv _ _ H) as [b Hb]. exists "", b. exact Hb.
    + cbn [Js.includes] in H. apply orb_true_iff in H as [H | H].
      * destruct (startsWith_inv _ _ H) as [b Hb]. exists "", b. exact Hb.
      * destruct (IH H) as (a & b & ->). exists (String c a), b. reflexivity.
  - intros (a & b & ->). induction a as [| c a IH].
    + rewrite append_nil. apply includes_here, startsWith_app.
    + rewrite append_cons. apply includes_later, IH.
Qed.

Lemma append_assoc (a b c : string) : (a ++ b) ++ c = a ++ b ++ c.
Proof.
  induction a as [| x a IH]; [reflexivity |].
  rewrite !append_cons, IH. reflexivity.
Qed.

(** A string that contains [p] contains what [p] contains. *)
Lemma includes_trans (s p q : string) :
  Js.includes s p = true -> Js.includes p q = true -> Js.includes s q = true.
Proof.
  intros Hs Hp. apply includes_spec in Hs as (a & b & ->).
  apply includes_spec in Hp as (a' & b' & ->).
  apply includes_spec. exists (a ++ a'), (b' ++ b).
  rewrite !append_assoc. reflexivity.
Qed.

Lemma includes_refl (s : string) : Js.includes s s = true.
Proof.
  apply includes_spec. exists "", "". rewrite append_nil.
  induction s as [| c s IH]; [reflexivity |].
  rewrite append_cons, <- IH. reflexivity.
Qed.

(** ** The reply detectors *)

Lemma phrase_hit_includes (lowerInput phrase : string) :
  phrase_hit lowerInput phrase = Js.includes lowerInput phrase.
Proof.
  unfold phrase_hit.
  destruct (Js.includes lowerInput phrase) eqn:Hinc.
  - rewrite orb_true_r. reflexivity.
  - rewrite orb_false_r, andb_false_r, orb_false_r.
    destruct (String.eqb lowerInput phrase) eqn:Heq; [| reflexivity].
    apply String.eqb_eq in Heq as ->. rewrite includes_refl in Hinc. discriminate.
Qed.

Lemma existsb_same {A : Type} (f g : A -> bool) (l : list A) :
  (forall x, f x = g x) -> existsb f l = existsb g l.
Proof.
  intros Hfg. induction l as [| x l IH]; cbn [existsb]; [reflexivity |].
  rewrite Hfg, IH. reflexivity.
Qed.

(** ** Trimming and substrings *)

Lemma length_append (a b : string) :
  String.length (a ++ b) = String.length a + String.length b.
Proof.
  induction a as [| c a IH]; [reflexivity |].
  rewrite append_cons. cbn [String.length]. rewrite IH. reflexivity.
Qed.

Lemma trimStart_suffix (s : string) : exists w, s = w ++ Js.trimStart s.
Proof.
  induction s as [| c s [w IH]]; [exists ""; reflexivity |].
  cbn [Js.trimStart]. destruct (Js.is_space c).
  - exists (String c w). rewrite append_cons, <- IH. reflexivity.
  - exists "". reflexivity.
Qed.

Lemma trimEnd_prefix (s : string) : exists w, s = Js.trimEnd s ++ w.
Proof.
  induction s as [| c s [w IH]]; [exists ""; reflexivity |].
  cbn [Js.trimEnd]. destruct (Js.trimEnd s) as [| c' t'] eqn:Ht.
  - destruct (Js.is_space c).
    + exists (String c s). reflexivity.
    + exists s. reflexivity.
  - exists w. rewrite append_cons, <- IH. reflexivity.
Qed.

(** The trimmed string is a part of the string. *)
Lemma trim_is_substring (s : string) : Js.includes s (Js.trim s) = true.
Proof.
  apply includes_spec. unfold Js.trim.
  destruct (trimStart_suffix s) as [a Ha].
  destruct (trimEnd_prefix (Js.trimStart s)) as [b Hb].
  exists a, b. rewrite <- Hb. exact Ha.
Qed.

Lemma trimStart_app (a x : string) :
  Js.trimStart x = x -> Js.trimStart (a ++ x) = Js.trimStart a ++ x.
Proof.
  intros Hx. induction a as [| c a IH]; [rewrite append_nil; exact Hx |].
  rewrite append_cons. cbn [Js.trimStart]. destruct (Js.is_space c).
  - exact IH.
  - rewrite append_cons. reflexivity.
Qed.

Lemma trimEnd_app (u v : string) :
  Js.trimEnd v <> "" -> Js.trimEnd (u ++ v) = u ++ Js.trimEnd v.
Proof.
  intros Hv. induction u as [| c u IH]; [reflexivity |].
  rewrite !append_cons. cbn [Js.trimEnd]. rewrite IH.
  destruct (u ++ Js.trimEnd v) as [| c' t'] eqn:Huv; [| reflexivity].
  destruct u; [| discriminate]. rewrite append_nil in Huv. contradiction.
Qed.

Lemma trimStart_keeps (p b : string) :
  p <> "" -> Js.trimStart p = p -> Js.trimStart (p ++ b) = p ++ b.
Proof.
  destruct p as [| c p]; [contradiction |]. intros _.
  rewrite append_cons. cbn [Js.trimStart]. destruct (Js.is_space c); [| reflexivity].
  intros Hp. exfalso.
  destruct (trimStart_suffix p) as [w Hw]. rewrite Hp in Hw.
  apply (f_equal String.length) in Hw. rewrite length_append in Hw.
  cbn in Hw. lia.
Qed.

Lemma trimEnd_keeps (p b : string) :
  p <> "" -> Js.trimEnd p = p -> exists w, Js.trimEnd (p ++ b) = p ++ w.
Proof.
  induction p as [| c p IH]; [contradiction |]. intros _ Hp.
  cbn [Js.trimEnd] in Hp. rewrite append_cons. cbn [Js.trimEnd].
  destruct p as [| c1 p1].
  - cbn [Js.trimEnd] in Hp. rewrite append_nil.
    destruct (Js.is_space c); [discriminate |].
    destruct (Js.trimEnd b) as [| c' t'].
    + exists "". reflexivity.
    + exists (String c' t'). reflexivity.
  - destruct (Js.trimEnd (String c1 p1)) as [| c' t'] eqn:Ht.
    + destruct (Js.is_space c); discriminate.
    + assert (Heq : String c' t' = String c1 p1) by congruence.
      destruct IH as [w Hw]; [discriminate | exact Heq |].
      rewrite Hw. exists w. rewrite append_cons. reflexivity.
Qed.

(** A phrase that trimming leaves alone is in the trimmed string exactly
    when it is in the string. *)
Lemma includes_trim (s p : string) :
  p <> "" -> Js.trim p = p ->
  Js.includes (Js.trim s) p = Js.includes s p.
Proof.
  intros Hne Hp.
  assert (Hstart : Js.trimStart p = p).
  { unfold Js.trim in Hp.
    destruct (trimStart_suffix p) as [w Hw]. destruct (trimEnd_prefix (Js.trimStart p)) as [w' Hw'].
    rewrite Hp in Hw'. rewrite Hw' in Hw.
    apply (f_equal String.length) in Hw. rewrite !length_append in Hw.
    assert (w' = "") as -> by (destruct w'; [reflexivity | cbn in Hw; lia]).
    clear Hw. revert Hw'. generalize (Js.trimStart p). intros x ->.
    clear. induction p as [| c p IH]; [reflexivity |].
    rewrite append_cons, IH. reflexivity. }
  assert (Hend : Js.trimEnd p = p) by (unfold Js.trim in Hp; rewrite Hstart in Hp; exact Hp).
  destruct (Js.includes s p) eqn:Hs.
  - apply includes_spec in Hs as (a & b & ->).
    apply includes_spec. unfold Js.trim.
    rewrite trimStart_app by (apply trimStart_keeps; assumption).
    destruct (trimEnd_keeps p b Hne Hend) as [w Hw].
    rewrite trimEnd_app by (rewrite Hw; destruct p; [contradiction | discriminate]).
    rewrite Hw. exists (Js.trimStart a), w. reflexivity.
  - destruct (Js.includes (Js.trim s) p) eqn:Ht; [| reflexivity].
    rewrite <- Hs. symmetry.
    apply includes_trans with (p := Js.trim s); [apply trim_is_substring | exact Ht].
Qed.

Lemma existsb_trim (s : string) (phrases : list string) :
  forallb (fun p => negb (String.eqb p "") && String.eqb (Js.trim p) p) phrases = true ->
  existsb (Js.includes (Js.trim s)) phrases = existsb (Js.includes s) phrases.
Proof.
  induction phrases as [| p ps IH]; [reflexivity |].
  cbn [forallb existsb]. intros H.
  apply andb_true_iff in H as [Hp Hps]. apply andb_true_iff in Hp as [Hne Htrim].
  rewrite includes_trim, (IH Hps); [reflexivity | | apply String.eqb_eq, Htrim].
  intros ->. discriminate.
Qed.

Lemma detectors_contain (input : string) :
  isAffirmative input = existsb (Js.includes (Js.toLowerCase input)) affirmatives /\
  isNegative input = existsb (Js.includes (Js.toLowerCase input)) negatives.
Proof.
  unfold isAffirmative, isNegative. split.
  - rewrite <- existsb_trim by (vm_compute; reflexivity).
    apply existsb_same. intros phrase. apply phrase_hit_includes.
  - rewrite <- existsb_trim by (vm_compute; reflexivity).
    apply existsb_same. intros phrase. apply phrase_hit_includes.
Qed.

(** X8.  The detectors test containment and nothing else: an input is
    affirmative (negative) exactly when its lower-cased text contains one
    of the affirmative (negative) phrases somewhere.  The equality test,
    the test on the phrase length and the trimming add nothing. *)
Theorem detectors_test_containment (input : string) :
  isAffirmative input = existsb (Js.includes (Js.toLowerCase input)) affirmatives /\
  isNegative input = existsb (Js.includes (Js.toLowerCase input)) negatives.
Proof. exact (detectors_contain input). Qed.

Lemma existsb_includes (s p : string) (phrases : list string) :
  In p phrases -> Js.includes s p = true -> existsb (Js.includes s) phrases = true.
Proof. intros Hin Hp. apply existsb_exists. exists p. split; assumption. Qed.

(** X9.  The phrase list has the single letter "k": an input with a k or
    a K anywhere in it is affirmative, whatever else it says.  On
    FINAL_CONFIRMATION such an input creates the ticket. *)
Theorem letter_k_confirms (now input : string) (conversation : ConversationState)
    (h : heap) :
  Js.includes (Js.toLowerCase input) "k" = true ->
  currentStep conversation = FINAL_CONFIRMATION ->
  isAffirmative input = true /\
  exists r,
    processAIMessage now input conversation h = (Returns r, h) /\
    currentStep (updatedConversation r) = TICKET_CREATED /\
    isComplete (updatedConversation r) = true /\
    metadata (assistantResponse r) = Some [("shouldCreateTicket", true)].
Proof.
  intros Hk Hstep.
  assert (Hyes : isAffirmative input = true).
  { rewrite (proj1 (detectors_contain input)).
    apply existsb_includes with (p := "k"); [| exact Hk].
    unfold affirmatives. cbn. tauto. }
  split; [exact Hyes |].
  eexists. split.
  - apply processAIMessage_pure. rewrite Hstep. discriminate.
  - rewrite Hstep. unfold pure_turn, case_FINAL_CONFIRMATION. rewrite Hyes.
    repeat split; reflexivity.
Qed.

Lemma letter_k_confirms_witness :
  isAffirmative "No thanks" = true /\
  exists r,
    processAIMessage sample_now "No thanks"
      (sample_conversation FINAL_CONFIRMATION (sample_data None)) ∅ = (Returns r, ∅) /\
    currentStep (updatedConversation r) = TICKET_CREATED /\
    isComplete (updatedConversation r) = true /\
    metadata (assistantResponse r) = Some [("shouldCreateTicket", true)].
Proof.
  apply (letter_k_confirms sample_now "No thanks"
           (sample_conversation FINAL_CONFIRMATION (sample_data None)) ∅).
  - vm_compute. reflexivity.
  - reflexivity.
Defined.

(** X10.  Three negative phrases contain an affirmative one ("incorrect"
    and "not correct" contain "correct", "not right" contains "right"), so
    an input with one of them is both negative and affirmative.  The
    SUGGEST_CATEGORY case asks [isAffirmative] first: such an input
    confirms the suggested category. *)
Theorem rejection_read_as_approval (now input : string)
    (conversation : ConversationState) (h : heap) :
  Js.includes (Js.toLowerCase input) "incorrect" = true \/
  Js.includes (Js.toLowerCase input) "not correct" = true \/
  Js.includes (Js.toLowerCase input) "not right" = true ->
  currentStep conversation = SUGGEST_CATEGORY ->
  isNegative input = true /\
  isAffirmative input = true /\
  exists r,
    processAIMessage now input conversation h = (Returns r, h) /\
    confirmedCategory (collectedData (updatedConversation r))
    = suggestedCategory (collectedData conversation).
Proof.
  intros Hin Hstep.
  assert (Hno : isNegative input = true).
  { rewrite (proj2 (detectors_contain input)).
    destruct Hin as [H | [H | H]];
      [apply existsb_includes with (p := "incorrect")
      | apply existsb_includes with (p := "not correct")
      | apply existsb_includes with (p := "not right")];
      try exact H; unfold negatives; cbn; tauto. }
  assert (Hyes : isAffirmative input = true).
  { rewrite (proj1 (detectors_contain input)).
    destruct Hin as [H | [H | H]];
      [apply existsb_includes with (p := "correct")
      | apply existsb_includes with (p := "correct")
      | apply existsb_includes with (p := "right")];
      try (unfold affirmatives; cbn; tauto);
      (eapply includes_trans; [exact H | vm_compute; reflexivity]). }
  split; [exact Hno | split; [exact Hyes |]].
  eexists. split.
  - apply processAIMessage_pure. rewrite Hstep. discriminate.
  - rewrite Hstep. unfold pure_turn, case_SUGGEST_CATEGORY. rewrite Hyes.
    cbn. destruct (Js.truthy _); reflexivity.
Qed.

Lemma rejection_read_as_approval_witness :
  isNegative "That is incorrect" = true /\
  isAffirmative "That is incorrect" = true /\
  exists r,
    processAIMessage sample_now "That is incorrect"
      (sample_conversation SUGGEST_CATEGORY
         (mkCollectedData (Some "John Smith") None (Some "My app crashes on login")
            (Some "My app crashes on login") (Some "technical") None None None))
      ∅ = (Returns r, ∅) /\
    confirmedCategory (collectedData (updatedConversation r)) = Some "technical".
Proof.
  apply (rejection_read_as_approval sample_now "That is incorrect"
           (sample_conversation SUGGEST_CATEGORY
              (mkCollectedData (Some "John Smith") None (Some "My app crashes on login")
                 (Some "My app crashes on login") (Some "technical") None None None))
           ∅).
  - left. vm_compute. reflexivity.
  - reflexivity.
Defined.

(** * The e-mail check *)

(** ** A greedy repetition succeeds when some number of repetitions does *)

Section GreedyRepeat.

Context {A : Type}.
Variable p : ascii -> bool.
Variable k : option ascii -> list ascii -> nat -> option A.
Hypothesis k_ignores_prev : forall pv pv' rs ps, k pv rs ps = k pv' rs ps.

Lemma repeat_greedy_succeeds (rest : list ascii) :
  forall (lo : nat) (prev : option ascii) (pos : nat),
    succeeds (repeat_class p true lo None prev rest pos k) = true <->
    exists n,
      lo <= n /\ n <= List.length rest /\
      forallb p (firstn n rest) = true /\
      succeeds (k prev (skipn n rest) (pos + n)) = true.
Proof.
  induction rest as [| c t IH]; intros lo prev pos.
  - destruct lo as [| lo']; cbn [repeat_class].
    + split.
      * intros H. exists 0. rewrite Nat.add_0_r. repeat split; auto.
      * intros (n & _ & Hn & _ & H). cbn in Hn.
        assert (n = 0) as -> by lia. rewrite Nat.add_0_r in H. exact H.
    + split; [discriminate |]. intros (n & Hlo & Hn & _). cbn in Hn. lia.
  - destruct lo as [| lo']; cbn [repeat_class room andb].
    + rewrite andb_true_r. destruct (p c) eqn:Hc.
      * split.
        -- intros H.
           destruct (repeat_class p true 0 (dec None) (Some c) t (S pos) k) eqn:Hrec.
           ++ assert (Hs : succeeds (repeat_class p true 0 None (Some c) t (S pos) k) = true)
                by (change None with (dec None) at 1; rewrite Hrec; reflexivity).
              apply IH in Hs as (n & _ & Hn & Hall & Hk).
              exists (S n). cbn [firstn skipn forallb List.length]. rewrite Hc.
              rewrite Nat.add_succ_r. rewrite (k_ignores_prev prev (Some c)).
              repeat split; auto; lia.
           ++ exists 0. rewrite Nat.add_0_r. repeat split; auto; lia.
        -- intros (n & _ & Hn & Hall & Hk).
           destruct n as [| n].
           ++ rewrite Nat.add_0_r in Hk. cbn [skipn] in Hk.
              destruct (repeat_class p true 0 (dec None) (Some c) t (S pos) k);
                [reflexivity | exact Hk].
           ++ cbn [firstn skipn forallb List.length] in *.
              apply andb_true_iff in Hall as [_ Hall].
              assert (Hs : succeeds (repeat_class p true 0 None (Some c) t (S pos) k) = true).
              { apply IH. exists n. rewrite Nat.add_succ_r in Hk.
                rewrite (k_ignores_prev (Some c) prev).
                repeat split; auto; lia. }
              change None with (dec None) in Hs at 1.
              destruct (repeat_class p true 0 (dec None) (Some c) t (S pos) k);
                [reflexivity | discriminate].
      * split.
        -- intros H. exists 0. rewrite Nat.add_0_r. repeat split; auto; lia.
        -- intros (n & _ & Hn & Hall & Hk). destruct n as [| n].
           ++ rewrite Nat.add_0_r in Hk. exact Hk.
           ++ cbn [firstn forallb] in Hall. rewrite Hc in Hall. discriminate.
    + rewrite andb_true_r. destruct (p c) eqn:Hc.
      * change (dec None) with (@None nat).
        rewrite IH. split.
        -- intros (n & Hlo & Hn & Hall & Hk). exists (S n).
           cbn [firstn skipn forallb List.length]. rewrite Hc.
           rewrite Nat.add_succ_r. rewrite (k_ignores_prev prev (Some c)).
           repeat split; auto; lia.
        -- intros (n & Hlo & Hn & Hall & Hk). destruct n as [| n]; [lia |].
           cbn [firstn skipn forallb List.length] in *.
           apply andb_true_iff in Hall as [_ Hall].
           exists n. rewrite Nat.add_succ_r in Hk.
           rewrite (k_ignores_prev (Some c) prev).
           repeat split; auto; lia.
      * split; [discriminate |].
        intros (n & Hlo & Hn & Hall & Hk). destruct n as [| n]; [lia |].
        cbn [firstn forallb] in Hall. rewrite Hc in Hall. discriminate.
Qed.

End GreedyRepeat.

(** ** Anchored patterns *)

Lemma search_anchored_later (r : regex) (rest : list ascii) :
  forall prev pos, pos <> 0 -> search (Seq Bol r) prev rest pos = None.
Proof.
  induction rest as [| c t IH]; intros prev pos Hpos;
    destruct pos as [| n]; try contradiction; cbn [search run Nat.eqb].
  - reflexivity.
  - apply IH. discriminate.
Qed.

(** A pattern that starts with [^] matches somewhere exactly when it
    matches at offset 0. *)
Lemma test_anchored (r : regex) (s : string) :
  test (Seq Bol r) s
  = succeeds (run r None (list_ascii_of_string s) 0 None
                (fun _ _ e cp => Some (Found 0 e cp))).
Proof.
  unfold test, exec.
  destruct (list_ascii_of_string s) as [| c t]; cbn [search run Nat.eqb].
  - destruct (run r None [] 0 None _); reflexivity.
  - destruct (run r None (c :: t) 0 None _); [reflexivity |].
    rewrite search_anchored_later by discriminate. reflexivity.
Qed.

Lemma run_chr {A : Type} (x : ascii) (r : regex) (pv : option ascii)
    (rs : list ascii) (ps : nat) (k : option ascii -> list ascii -> nat -> capture -> option A) :
  succeeds (run (Seq (chr x) r) pv rs ps None k) = true <->
  exists t, rs = x :: t /\ succeeds (run r (Some x) t (S ps) None k) = true.
Proof.
  cbn [run chr]. destruct rs as [| c t].
  - split; [discriminate | intros (t & Ht & _); discriminate].
  - destruct (Ascii.eqb x c) eqn:Hx.
    + apply Ascii.eqb_eq in Hx as <-. split.
      * intros H. exists t. split; [reflexivity | exact H].
      * intros (t' & [= <-] & H). exact H.
    + split; [discriminate |]. intros (t' & [= -> _] & _).
      rewrite Ascii.eqb_refl in Hx. discriminate.
Qed.

Lemma run_plus {A : Type} (p : ascii -> bool) (r : regex) (pv : option ascii)
    (rs : list ascii) (ps : nat) (k : option ascii -> list ascii -> nat -> capture -> option A) :
  (forall pv1 pv2 rs' ps', run r pv1 rs' ps' None k = run r pv2 rs' ps' None k) ->
  succeeds (run (Seq (plus p) r) pv rs ps None k) = true <->
  exists n,
    1 <= n /\ n <= List.length rs /\ forallb p (firstn n rs) = true /\
    succeeds (run r pv (skipn n rs) (ps + n) None k) = true.
Proof.
  intros Hr. cbn [run plus].
  apply (repeat_greedy_succeeds p (fun pv' rs' ps' => run r pv' rs' ps' None k)).
  exact Hr.
Qed.

Lemma run_eol (pv : option ascii) (rs : list ascii) (ps : nat) :
  succeeds (run Eol pv rs ps None (fun _ _ e cp => Some (Found 0 e cp))) = true
  <-> rs = [].
Proof. cbn [run]. destruct rs; split; try reflexivity; discriminate. Qed.

(** ** From lists of characters to strings *)

Lemma list_of_append (a b : string) :
  list_ascii_of_string (a ++ b)
  = (list_ascii_of_string a ++ list_ascii_of_string b)%list.
Proof.
  induction a as [| c a IH]; [reflexivity |].
  rewrite append_cons. cbn [list_ascii_of_string]. rewrite IH. reflexivity.
Qed.

Lemma string_of_app (x y : list ascii) :
  string_of_list_ascii (x ++ y)%list = string_of_list_ascii x ++ string_of_list_ascii y.
Proof.
  induction x as [| c x IH]; [reflexivity |].
  cbn [app string_of_list_ascii]. rewrite IH, append_cons. reflexivity.
Qed.

Lemma all_chars_list (p : ascii -> bool) (s : string) :
  all_chars p s = forallb p (list_ascii_of_string s).
Proof.
  induction s as [| c s IH]; [reflexivity |].
  cbn [all_chars list_ascii_of_string forallb]. rewrite IH. reflexivity.
Qed.

Lemma all_chars_of_list (p : ascii -> bool) (l : list ascii) :
  all_chars p (string_of_list_ascii l) = forallb p l.
Proof.
  rewrite all_chars_list, list_ascii_of_string_of_list_ascii. reflexivity.
Qed.

Lemma firstn_nonempty {B : Type} (n : nat) (l : list B) :
  1 <= n -> n <= List.length l -> firstn n l <> [].
Proof. destruct n, l; cbn; intros; try lia; discriminate. Qed.

Lemma firstn_exact {B : Type} (l x : list B) : firstn (List.length l) (l ++ x)%list = l.
Proof. induction l as [| c l IH]; cbn; [destruct x | rewrite IH]; reflexivity. Qed.

Lemma skipn_exact {B : Type} (l x : list B) : skipn (List.length l) (l ++ x)%list = x.
Proof. induction l as [| c l IH]; cbn; [reflexivity | exact IH]. Qed.

Lemma nonempty_length (s : string) : s <> "" -> 1 <= List.length (list_ascii_of_string s).
Proof. destruct s; [contradiction | cbn; lia]. Qed.

(** ** The shape of an accepted address *)

(** The strings the e-mail pattern accepts. *)
Lemma emailRegex_pattern (s : string) :
  test emailRegex s = true <->
  exists a b c,
    s = a ++ "@" ++ b ++ "." ++ c /\
    a <> "" /\ b <> "" /\ c <> "" /\
    all_chars email_char a = true /\
    all_chars email_char b = true /\
    all_chars email_char c = true.
Proof.
  change emailRegex
    with (Seq Bol (Seq (plus email_char) (Seq (chr "@") (Seq (plus email_char)
            (Seq (chr ".") (Seq (plus email_char) Eol)))))).
  rewrite test_anchored.
  assert (Hchr : forall x r pv1 pv2 rs ps,
             run (Seq (chr x) r) pv1 rs ps None
               (fun (_ : option ascii) (_ : list ascii) e cp => Some (Found 0 e cp))
             = run (Seq (chr x) r) pv2 rs ps None
                 (fun (_ : option ascii) (_ : list ascii) e cp => Some (Found 0 e cp)))
    by reflexivity.
  assert (Heol : forall pv1 pv2 rs ps,
             run Eol pv1 rs ps None
               (fun (_ : option ascii) (_ : list ascii) e cp => Some (Found 0 e cp))
             = run Eol pv2 rs ps None
                 (fun (_ : option ascii) (_ : list ascii) e cp => Some (Found 0 e cp)))
    by (intros; destruct rs; reflexivity).
  split.
  - intros H.
    apply run_plus in H as (n1 & Hn1 & Hl1 & Ha & H); [| apply Hchr].
    apply run_chr in H as (r1 & Hr1 & H).
    apply run_plus in H as (n2 & Hn2 & Hl2 & Hb & H); [| apply Hchr].
    apply run_chr in H as (r2 & Hr2 & H).
    apply run_plus in H as (n3 & Hn3 & Hl3 & Hc & H); [| apply Heol].
    apply run_eol in H.
    exists (string_of_list_ascii (firstn n1 (list_ascii_of_string s))),
           (string_of_list_ascii (firstn n2 r1)),
           (string_of_list_ascii (firstn n3 r2)).
    rewrite !all_chars_of_list. split; [| repeat split; auto].
    + rewrite <- (string_of_list_ascii_of_string s) at 1.
      rewrite <- (firstn_skipn n1 (list_ascii_of_string s)) at 1.
      rewrite Hr1, <- (firstn_skipn n2 r1) at 1.
      rewrite Hr2, <- (firstn_skipn n3 r2) at 1.
      rewrite H, app_nil_r.
      rewrite !string_of_app. cbn [string_of_list_ascii].
      rewrite !string_of_app. cbn [string_of_list_ascii].
      reflexivity.
    + intros Hz. apply (f_equal list_ascii_of_string) in Hz.
      rewrite list_ascii_of_string_of_list_ascii in Hz.
      exact (firstn_nonempty _ _ Hn1 Hl1 Hz).
    + intros Hz. apply (f_equal list_ascii_of_string) in Hz.
      rewrite list_ascii_of_string_of_list_ascii in Hz.
      exact (firstn_nonempty _ _ Hn2 Hl2 Hz).
    + intros Hz. apply (f_equal list_ascii_of_string) in Hz.
      rewrite list_ascii_of_string_of_list_ascii in Hz.
      exact (firstn_nonempty _ _ Hn3 Hl3 Hz).
  - intros (a & b & c & -> & Ha0 & Hb0 & Hc0 & Ha & Hb & Hc).
    rewrite all_chars_list in Ha, Hb, Hc.
    rewrite !list_of_append. cbn [list_ascii_of_string app].
    apply run_plus; [apply Hchr |].
    exists (List.length (list_ascii_of_string a)).
    rewrite firstn_exact, skipn_exact, length_app.
    split; [apply nonempty_length, Ha0 | split; [lia | split; [exact Ha |]]].
    apply run_chr. eexists. split; [reflexivity |].
    apply run_plus; [apply Hchr |].
    exists (List.length (list_ascii_of_string b)).
    rewrite firstn_exact, skipn_exact, length_app.
    split; [apply nonempty_length, Hb0 | split; [lia | split; [exact Hb |]]].
    apply run_chr. eexists. split; [reflexivity |].
    apply run_plus; [apply Heol |].
    exists (List.length (list_ascii_of_string c)).
    rewrite firstn_all, skipn_all.
    split; [apply nonempty_length, Hc0 | split; [lia | split; [exact Hc |]]].
    apply run_eol. reflexivity.
Qed.

(** X11.  The e-mail pattern accepts exactly the strings of the shape
    [a@b.c] in which [a], [b] and [c] are not empty and hold neither
    white space nor "@".  So an accepted address has exactly one "@", a
    period somewhere after it with something on both sides, and no white
    space; nothing more is asked of it. *)
Theorem emailRegex_shape (s : string) :
  test emailRegex s = true <->
  exists a b c,
    s = a ++ "@" ++ b ++ "." ++ c /\
    a <> "" /\ b <> "" /\ c <> "" /\
    all_chars email_char a = true /\
    all_chars email_char b = true /\
    all_chars email_char c = true.
Proof. exact (emailRegex_pattern s). Qed.

(** ** The address the engine stores *)

(** X12.  The engine writes [userEmail] only on COLLECT_NAME and only
    after the check: after any call the e-mail is the one the input
    conversation had, or it is the trimmed, lower-cased input and has the
    shape [a@b.c] with no white space and a single "@". *)
Theorem stored_email_has_shape (now userInput : string)
    (conversation : ConversationState) (h : heap) :
  exists r h',
    processAIMessage now userInput conversation h = (Returns r, h') /\
    (userEmail (collectedData (updatedConversation r))
     = userEmail (collectedData conversation) \/
     (currentStep conversation = COLLECT_NAME /\
      currentStep (updatedConversation r) = FINAL_CONFIRMATION /\
      userEmail (collectedData (updatedConversation r))
      = Some (Js.toLowerCase (Js.trim userInput)) /\
      exists a b c,
        Js.toLowerCase (Js.trim userInput) = a ++ "@" ++ b ++ "." ++ c /\
        a <> "" /\ b <> "" /\ c <> "" /\
        all_chars email_char a = true /\
        all_chars email_char b = true /\
        all_chars email_char c = true)).
Proof.
  destruct (step_eqb (currentStep conversation) COLLECT_NAME) eqn:Hstep.
  - apply step_eqb_eq in Hstep. eexists _, h. split.
    + apply processAIMessage_pure. rewrite Hstep. discriminate.
    + rewrite Hstep.
      cbn [finish updatedConversation collectedData currentStep pure_turn].
      unfold case_COLLECT_NAME.
      destruct (test emailRegex (Js.toLowerCase (Js.trim userInput))) eqn:Htest.
      * right. split; [reflexivity |]. split; [reflexivity |]. split; [reflexivity |].
        apply emailRegex_pattern. exact Htest.
      * left. reflexivity.
  - assert (Hne : currentStep conversation <> COLLECT_NAME)
      by (intros Heq; apply step_eqb_eq in Heq; congruence).
    destruct (processAIMessage_outcome now userInput conversation h)
      as [(t & h' & Hd & Hcall) | (Hcall & _)].
    + exists (finish now conversation t), h'. split; [exact Hcall |]. left.
      cbn [finish updatedConversation collectedData].
      destruct (dispatch_returns _ _ _ _ _ _ Hd) as [(Hpure & -> & _) | (_ & Hcase)].
      * apply (pure_turn_frame userInput _ (collectedData conversation) Hpure). exact Hne.
      * destruct (case_CLARIFY_DETAILS_returns _ _ _ _ _ Hcase)
          as [(_ & _ & -> & _) | (_ & l & base & _ & _ & _ & -> & _)]; reflexivity.
    + exists (recover conversation), h. split; [exact Hcall |]. left. reflexivity.
Qed.

(** * Cleaning of the typed text *)

Lemma take_length (n : nat) (s : string) : String.length (Js.take n s) <= n.
Proof.
  revert s. induction n as [| n IH]; intros s; [cbn; lia |].
  destruct s as [| c s]; cbn [Js.take String.length]; [lia |].
  specialize (IH s). lia.
Qed.

Lemma all_chars_take (p : ascii -> bool) (n : nat) (s : string) :
  all_chars p s = true -> all_chars p (Js.take n s) = true.
Proof.
  revert s. induction n as [| n IH]; intros s H; [reflexivity |].
  destruct s as [| c s]; [reflexivity |].
  cbn [Js.take all_chars] in *. apply andb_true_iff in H as [Hc Hs].
  rewrite Hc, (IH s Hs). reflexivity.
Qed.

Lemma single_spaced_two (c c' : ascii) (t : string) :
  single_spaced (String c (String c' t))
  = negb (Js.is_space c && Js.is_space c') && single_spaced (String c' t).
Proof. reflexivity. Qed.

Lemma single_spaced_tail (c : ascii) (s : string) :
  single_spaced (String c s) = true -> single_spaced s = true.
Proof.
  destruct s as [| c' s]; [reflexivity |]. rewrite single_spaced_two.
  intros H. apply andb_true_iff in H as [_ H]. exact H.
Qed.

Lemma single_spaced_take (n : nat) (s : string) :
  single_spaced s = true -> single_spaced (Js.take n s) = true.
Proof.
  revert s. induction n as [| n IH]; intros s H; [reflexivity |].
  destruct s as [| c s]; [reflexivity |]. cbn [Js.take].
  pose proof (IH s (single_spaced_tail _ _ H)) as Ht.
  destruct n as [| n]; [destruct s; reflexivity |].
  destruct s as [| c' s]; [reflexivity |].
  cbn [Js.take] in *. rewrite single_spaced_two in H |- *.
  apply andb_true_iff in H as [Hcc _]. rewrite Hcc. exact Ht.
Qed.

Lemma starts_clean_take (n : nat) (s : string) :
  starts_clean s = true -> starts_clean (Js.take n s) = true.
Proof. destruct n, s; cbn; auto. Qed.

Lemma starts_clean_trim (s : string) : starts_clean (Js.trim s) = true.
Proof.
  unfold Js.trim.
  assert (Hstart : starts_clean (Js.trimStart s) = true).
  { induction s as [| c s IH]; [reflexivity |].
    cbn [Js.trimStart]. destruct (Js.is_space c) eqn:Hc; [exact IH |].
    cbn [starts_clean]. rewrite Hc. reflexivity. }
  destruct (Js.trimStart s) as [| c t]; [reflexivity |].
  cbn [starts_clean] in Hstart. apply negb_true_iff in Hstart.
  cbn [Js.trimEnd]. rewrite Hstart.
  destruct (Js.trimEnd t); cbn [starts_clean]; rewrite Hstart; reflexivity.
Qed.

(** What [.replace(/\s+/g, ' ')] leaves: the characters that were not
    white space, and single plain spaces. *)
Lemma replace_runs_head (s : string) :
  starts_clean s = true ->
  starts_clean (Js.replace_runs Js.is_space " " s) = true.
Proof.
  destruct s as [| c s]; [reflexivity |]. cbn [starts_clean Js.replace_runs].
  destruct (Js.is_space c) eqn:Hc; [discriminate |].
  intros _. cbn [starts_clean]. rewrite Hc. reflexivity.
Qed.

Lemma replace_runs_chars (q : ascii -> bool) (s : string) :
  q " "%char = true ->
  all_chars (fun c => Js.is_space c || q c) s = true ->
  all_chars q (Js.replace_runs Js.is_space " " s) = true.
Proof.
  intros Hq. induction s as [| c s IH]; [reflexivity |].
  cbn [all_chars]. intros H. apply andb_true_iff in H as [Hc Hs].
  specialize (IH Hs). cbn [Js.replace_runs].
  destruct (Js.is_space c) eqn:Hsp.
  - destruct s as [| c' s']; [cbn; rewrite Hq; reflexivity |].
    destruct (Js.is_space c'); [exact IH |].
    rewrite append_cons, append_nil. cbn [all_chars]. rewrite Hq. exact IH.
  - cbn [all_chars]. cbn [orb] in Hc. rewrite Hc. exact IH.
Qed.

Lemma single_spaced_after_clean (c : ascii) (t : string) :
  Js.is_space c = false -> single_spaced t = true ->
  single_spaced (String c t) = true.
Proof.
  intros Hc Ht. destruct t as [| c' t']; [reflexivity |].
  rewrite single_spaced_two, Hc, Ht. reflexivity.
Qed.

Lemma single_spaced_before_clean (c : ascii) (t : string) :
  starts_clean t = true -> single_spaced t = true ->
  single_spaced (String c t) = true.
Proof.
  intros Hs Ht. destruct t as [| c' t']; [reflexivity |].
  cbn [starts_clean] in Hs. apply negb_true_iff in Hs.
  rewrite single_spaced_two, Hs, Ht, andb_false_r. reflexivity.
Qed.

Lemma replace_runs_single (s : string) :
  single_spaced (Js.replace_runs Js.is_space " " s) = true.
Proof.
  induction s as [| c s IH]; [reflexivity |].
  cbn [Js.replace_runs]. destruct (Js.is_space c) eqn:Hsp.
  - destruct s as [| c' s']; [reflexivity |].
    destruct (Js.is_space c') eqn:Hsp'; [exact IH |].
    rewrite append_cons, append_nil.
    apply single_spaced_before_clean; [| exact IH].
    apply replace_runs_head. cbn [starts_clean]. rewrite Hsp'. reflexivity.
  - apply single_spaced_after_clean; assumption.
Qed.

Lemma sanitize_length (n : nat) (userInput : string) :
  String.length (sanitize n userInput) <= n.
Proof. apply take_length. Qed.

(** X13.  The cleaning the steps apply to typed text,
    [.trim().replace(/\s+/g, ' ').substring(0, n)], gives at most [n]
    characters that do not start with white space, in which the only
    white space is the plain space and no two spaces are adjacent. *)
Theorem sanitize_normalises (n : nat) (userInput : string) :
  String.length (sanitize n userInput) <= n /\
  starts_clean (sanitize n userInput) = true /\
  all_chars normal_char (sanitize n userInput) = true /\
  single_spaced (sanitize n userInput) = true.
Proof.
  unfold sanitize. split; [apply take_length |].
  split; [apply starts_clean_take, replace_runs_head, starts_clean_trim |].
  split; [| apply single_spaced_take, replace_runs_single].
  apply all_chars_take, replace_runs_chars; [reflexivity |].
  generalize (Js.trim userInput). intros s.
  induction s as [| c s IH]; [reflexivity |].
  cbn [all_chars]. rewrite IH, andb_true_r. unfold normal_char.
  destruct (Js.is_space c); reflexivity.
Qed.

(** * The validating steps *)

(** ** The description of the issue and its title *)

Lemma split_hd_has_no_sep (sep : ascii) (s : string) :
  all_chars (fun c => negb (Ascii.eqb c sep)) (hd "" (Js.split sep s)) = true.
Proof.
  induction s as [| c s IH]; [reflexivity |].
  cbn [Js.split]. destruct (Ascii.eqb c sep) eqn:Hc; [reflexivity |].
  destruct (Js.split sep s) as [| w ws]; cbn [hd all_chars] in *;
    rewrite Hc; [reflexivity | exact IH].
Qed.

Lemma split_hd_is_prefix (sep : ascii) (s : string) :
  exists rest, s = hd "" (Js.split sep s) ++ rest.
Proof.
  induction s as [| c s [rest IH]]; [exists ""; reflexivity |].
  cbn [Js.split]. destruct (Ascii.eqb c sep).
  - exists (String c s). reflexivity.
  - destruct (Js.split sep s) as [| w ws]; cbn [hd] in *.
    + exists s. reflexivity.
    + exists rest. rewrite append_cons, <- IH. reflexivity.
Qed.

Lemma take_is_prefix (n : nat) (s : string) : exists rest, s = Js.take n s ++ rest.
Proof.
  revert s. induction n as [| n IH]; intros s; [exists s; reflexivity |].
  destruct s as [| c s]; [exists ""; reflexivity |].
  destruct (IH s) as [rest Hrest]. exists rest.
  cbn [Js.take]. rewrite append_cons, <- Hrest. reflexivity.
Qed.

(** X14.  On COLLECT_ISSUE the cleaned input decides.  Under ten
    characters the call asks again and changes nothing.  From ten
    characters on it stores the cleaned input, at most 1000 characters, as
    the description and moves to CLARIFY_DETAILS; the title it stores is
    never empty, has at most 100 characters and no period, and is either
    the start of the description or the text "Support Request". *)
Theorem collect_issue_validation (now userInput : string)
    (conversation : ConversationState) (h : heap) :
  currentStep conversation = COLLECT_ISSUE ->
  exists r,
    processAIMessage now userInput conversation h = (Returns r, h) /\
    let cleaned := sanitize 1000 userInput in
    let d' := collectedData (updatedConversation r) in
    (String.length cleaned < 10 ->
     currentStep (updatedConversation r) = COLLECT_ISSUE /\
     d' = collectedData conversation) /\
    (10 <= String.length cleaned ->
     currentStep (updatedConversation r) = CLARIFY_DETAILS /\
     issueDescription d' = Some cleaned /\
     String.length cleaned <= 1000 /\
     exists title,
       issueTitle d' = Some title /\
       title <> "" /\
       String.length title <= 100 /\
       all_chars (fun c => negb (Ascii.eqb c ".")) title = true /\
       ((exists rest, cleaned = title ++ rest) \/ title = "Support Request")).
Proof.
  intros Hstep. eexists. split.
  - apply processAIMessage_pure. rewrite Hstep. discriminate.
  - rewrite Hstep.
    cbn [finish updatedConversation collectedData currentStep pure_turn].
    unfold case_COLLECT_ISSUE. split.
    + intros Hshort. apply Nat.ltb_lt in Hshort. rewrite Hshort.
      split; reflexivity.
    + intros Hlong.
      replace (String.length (sanitize 1000 userInput) <? 10) with false
        by (symmetry; apply Nat.ltb_ge, Hlong).
      split; [reflexivity |]. split; [reflexivity |].
      split; [apply sanitize_length |].
      eexists. split; [reflexivity |].
      unfold Js.or_else. cbn [Js.truthy Js.show].
      destruct (Js.take 100 (hd "" (Js.split "." (sanitize 1000 userInput))))
        as [| c t] eqn:Htitle.
      * cbn [String.eqb negb].
        split; [discriminate |]. split; [cbn [String.length]; lia |].
        split; [reflexivity | right; reflexivity].
      * cbn [String.eqb negb]. rewrite <- Htitle.
        split; [rewrite Htitle; discriminate |].
        split; [apply take_length |].
        split; [apply all_chars_take, split_hd_has_no_sep |].
        left. destruct (split_hd_is_prefix "." (sanitize 1000 userInput)) as [r1 H1].
        destruct (take_is_prefix 100 (hd "" (Js.split "." (sanitize 1000 userInput))))
          as [r2 H2].
        exists (r2 ++ r1). rewrite <- append_assoc, <- H2. exact H1.
Qed.

Lemma collect_issue_validation_witness :
  exists r,
    processAIMessage sample_now "  The app   crashes. It started today. "
      (sample_conversation COLLECT_ISSUE emptyData) ∅ = (Returns r, ∅) /\
    currentStep (updatedConversation r) = CLARIFY_DETAILS /\
    issueDescription (collectedData (updatedConversation r))
    = Some "The app crashes. It started today." /\
    exists title,
      issueTitle (collectedData (updatedConversation r)) = Some title /\
      title <> "" /\ String.length title <= 100.
Proof.
  destruct (collect_issue_validation sample_now "  The app   crashes. It started today. "
              (sample_conversation COLLECT_ISSUE emptyData) ∅ eq_refl)
    as (r & Hcall & _ & Hlong).
  exists r. split; [exact Hcall |].
  destruct Hlong as (Hs & Hd & _ & title & Ht & Hne & Hlen & _); [vm_compute; lia |].
  split; [exact Hs | split; [exact Hd |]].
  exists title. split; [exact Ht | split; [exact Hne | exact Hlen]].
Defined.

(** ** Names *)

Lemma clean_name_chars (s : string) :
  all_chars clean_name_char (clean_name s) = true.
Proof.
  unfold clean_name. apply replace_runs_chars; [reflexivity |].
  induction s as [| c s IH]; [reflexivity |].
  cbn [Js.remove_class].
  destruct (Js.is_word c || Js.is_space c || one_of "-'." c) eqn:Hok;
    cbn [negb]; [| exact IH].
  cbn [all_chars]. rewrite IH, andb_true_r. unfold clean_name_char.
  destruct (Js.is_space c), (Js.is_word c), (one_of "-'." c);
    cbn [orb] in *; rewrite ?orb_true_r; try reflexivity; discriminate.
Qed.

Lemma clean_name_single (s : string) : single_spaced (clean_name s) = true.
Proof. apply replace_runs_single. Qed.

(** The loop over the name patterns gives nothing or a cleaned group of
    2 to 30 characters. *)
Lemma first_name_found (patterns : list regex) (cleanInput n : string) :
  first_name patterns cleanInput = Some n ->
  2 <= String.length n /\ String.length n <= 30 /\ exists g, n = clean_name (Js.trim g).
Proof.
  induction patterns as [| pattern others IH]; [discriminate |].
  cbn [first_name].
  destruct (match_group pattern cleanInput) as [g |]; [| exact IH].
  destruct ((2 <=? String.length (clean_name (Js.trim g)))
            && (String.length (clean_name (Js.trim g)) <=? 30)) eqn:Hlen; [| exact IH].
  intros [= <-]. apply andb_true_iff in Hlen as [H2 H30].
  apply Nat.leb_le in H2, H30. repeat split; try assumption. exists g. reflexivity.
Qed.

Lemma name_shape (input : string) :
  let r := extractNameFromInput input in
  (isSentence r = true ->
   needsClarification r = true /\
   (name r = "" \/ (2 <= String.length (name r) /\ String.length (name r) <= 30))) /\
  (isSentence r = false ->
   String.length (name r) <= 50 /\
   needsClarification r = (String.length (name r) <? 2)) /\
  (needsClarification r = false ->
   isSentence r = false /\
   2 <= String.length (name r) /\ String.length (name r) <= 50).
Proof.
  unfold extractNameFromInput.
  destruct (existsb _ sentencePatterns || _).
  - destruct (first_name namePatterns (Js.trim input)) as [n |] eqn:Hn;
      cbn [name isSentence needsClarification].
    + destruct (first_name_found _ _ _ Hn) as (H2 & H30 & _).
      repeat split; auto; discriminate.
    + repeat split; auto; discriminate.
  - cbn [name isSentence needsClarification].
    pose proof (take_length 50 (clean_name (Js.trim input))) as H50.
    repeat split; auto; try discriminate.
    apply Nat.ltb_ge. assumption.
Qed.

(** X15.  What [extractNameFromInput] returns hangs together: a sentence
    always needs clarification and carries either no name or one of 2 to
    30 characters; an input that is no sentence carries at most 50
    characters and needs clarification exactly when it carries fewer than
    two; so a result that needs no clarification is a plain name of 2 to
    50 characters. *)
Theorem extractNameFromInput_shape (input : string) :
  let r := extractNameFromInput input in
  (isSentence r = true ->
   needsClarification r = true /\
   (name r = "" \/ (2 <= String.length (name r) /\ String.length (name r) <= 30))) /\
  (isSentence r = false ->
   String.length (name r) <= 50 /\
   needsClarification r = (String.length (name r) <? 2)) /\
  (needsClarification r = false ->
   isSentence r = false /\
   2 <= String.length (name r) /\ String.length (name r) <= 50).
Proof. exact (name_shape input). Qed.

(** X16.  Whatever is typed, the name [extractNameFromInput] returns
    holds only word characters, plain spaces, hyphens, apostrophes and
    periods, and never two spaces in a row: no other punctuation, markup
    or control character gets into a name. *)
Theorem extracted_name_is_clean (input : string) :
  all_chars clean_name_char (name (extractNameFromInput input)) = true /\
  single_spaced (name (extractNameFromInput input)) = true.
Proof.
  unfold extractNameFromInput.
  destruct (existsb _ sentencePatterns || _).
  - destruct (first_name namePatterns (Js.trim input)) as [n |] eqn:Hn;
      cbn [name]; [| split; reflexivity].
    destruct (first_name_found _ _ _ Hn) as (_ & _ & g & ->).
    split; [apply clean_name_chars | apply clean_name_single].
  - cbn [name]. split.
    + apply all_chars_take, clean_name_chars.
    + apply single_spaced_take, clean_name_single.
Qed.

(** ** Leaving GREETING *)

(** X17.  A call on GREETING that moves on to COLLECT_ISSUE has committed
    a name: [userName] is then a non-empty string and no staged name is
    left.  A call that stays on GREETING leaves [userName] as it was. *)
Theorem greeting_commits_a_name (now userInput : string)
    (conversation : ConversationState) (h : heap) :
  currentStep conversation = GREETING ->
  exists r,
    processAIMessage now userInput conversation h = (Returns r, h) /\
    let d' := collectedData (updatedConversation r) in
    (currentStep (updatedConversation r) = COLLECT_ISSUE ->
     (exists n, userName d' = Some n /\ n <> "") /\
     Js.truthy (potentialName d') = false) /\
    (currentStep (updatedConversation r) = GREETING ->
     userName d' = userName (collectedData conversation)).
Proof.
  intros Hstep. eexists. split.
  - apply processAIMessage_pure. rewrite Hstep. discriminate.
  - rewrite Hstep.
    cbn [finish updatedConversation collectedData currentStep pure_turn].
    unfold case_GREETING.
    destruct (needsClarification (extractNameFromInput userInput)) eqn:Hclar.
    + destruct (negb _ && isSentence _); cbn; split; try discriminate; reflexivity.
    + destruct (Js.truthy (potentialName (collectedData conversation))) eqn:Hstaged;
        cbn [andb].
      * destruct (isAffirmative userInput || isNegative userInput);
          [destruct (isAffirmative userInput) |]; cbn; rewrite ?Hstaged; cbn.
        -- split; [intros _ | discriminate]. split; [| reflexivity].
           destruct (potentialName (collectedData conversation)) as [n |];
             [| discriminate].
           exists n. split; [reflexivity |]. intros ->. discriminate.
        -- split; [discriminate | reflexivity].
        -- split; [intros _ | discriminate]. split; [| reflexivity].
           eexists. split; [reflexivity |]. intros Hempty.
           destruct (name_shape userInput) as (_ & _ & Hplain).
           destruct (Hplain Hclar) as (_ & H2 & _). rewrite Hempty in H2.
           cbn in H2. lia.
      * cbn. rewrite Hstaged. cbn.
        split; [intros _ | discriminate]. split; [| exact Hstaged].
        eexists. split; [reflexivity |]. intros Hempty.
        destruct (name_shape userInput) as (_ & _ & Hplain).
        destruct (Hplain Hclar) as (_ & H2 & _). rewrite Hempty in H2.
        cbn in H2. lia.
Qed.

Lemma greeting_commits_a_name_witness :
  exists r,
    processAIMessage sample_now "Anne-Marie O'Neil"
      (sample_conversation GREETING emptyData) ∅ = (Returns r, ∅) /\
    let d' := collectedData (updatedConversation r) in
    (currentStep (updatedConversation r) = COLLECT_ISSUE ->
     (exists n, userName d' = Some n /\ n <> "") /\
     Js.truthy (potentialName d') = false) /\
    (currentStep (updatedConversation r) = GREETING ->
     userName d' = None).
Proof.
  apply (greeting_commits_a_name sample_now "Anne-Marie O'Neil"
           (sample_conversation GREETING emptyData) ∅).
  reflexivity.
Defined.

(** ** Input of white space only *)

Lemma trimStart_blank (s : string) :
  all_chars Js.is_space s = true -> Js.trimStart s = "".
Proof.
  induction s as [| c s IH]; [reflexivity |]. cbn [all_chars Js.trimStart].
  intros H. apply andb_true_iff in H as [Hc Hs]. rewrite Hc. exact (IH Hs).
Qed.

Lemma trim_blank (s : string) : all_chars Js.is_space s = true -> Js.trim s = "".
Proof. intros H. unfold Js.trim. rewrite (trimStart_blank s H). reflexivity. Qed.

Lemma sanitize_blank (n : nat) (s : string) :
  all_chars Js.is_space s = true -> sanitize n s = "".
Proof. intros H. unfold sanitize. rewrite (trim_blank s H). destruct n; reflexivity. Qed.

Lemma lower_keeps_space (c : ascii) : Js.is_space (Js.lower c) = Js.is_space c.
Proof.
  destruct c as [[] [] [] [] [] [] [] []]; vm_compute; reflexivity.
Qed.

Lemma blank_has_no_skip (s : string) :
  all_chars Js.is_space s = true -> Js.includes (Js.toLowerCase s) "skip" = false.
Proof.
  induction s as [| c s IH]; [reflexivity |]. cbn [all_chars Js.toLowerCase].
  intros H. apply andb_true_iff in H as [Hc Hs].
  cbn [Js.includes Js.startsWith]. rewrite (IH Hs), orb_false_r.
  destruct (Ascii.eqb "s" (Js.lower c)) eqn:Heq; [| reflexivity].
  apply Ascii.eqb_eq in Heq. rewrite <- lower_keeps_space, <- Heq in Hc. discriminate.
Qed.

(** X18.  An input of white space only (or no input at all) is never
    taken as an answer by a step that validates: on GREETING,
    COLLECT_ISSUE, CLARIFY_DETAILS and COLLECT_NAME the call asks again,
    stays on the step and leaves the collected data and the store as they
    were. *)
Theorem blank_input_asks_again (now userInput : string)
    (conversation : ConversationState) (h : heap) :
  all_chars Js.is_space userInput = true ->
  currentStep conversation = GREETING \/
  currentStep conversation = COLLECT_ISSUE \/
  currentStep conversation = CLARIFY_DETAILS \/
  currentStep conversation = COLLECT_NAME ->
  exists r,
    processAIMessage now userInput conversation h = (Returns r, h) /\
    currentStep (updatedConversation r) = currentStep conversation /\
    collectedData (updatedConversation r) = collectedData conversation /\
    type (assistantResponse r) = type_question /\
    nextStep (assistantResponse r) = None.
Proof.
  intros Hblank Hstep.
  assert (Hname : extractNameFromInput userInput = mkNameResult "" false true).
  { unfold extractNameFromInput. rewrite (trim_blank _ Hblank). vm_compute. reflexivity. }
  destruct Hstep as [Hstep | [Hstep | [Hstep | Hstep]]].
  - eexists. split; [apply processAIMessage_pure; rewrite Hstep; discriminate |].
    rewrite Hstep. cbn [pure_turn]. unfold case_GREETING. rewrite Hname.
    repeat split; reflexivity.
  - eexists. split; [apply processAIMessage_pure; rewrite Hstep; discriminate |].
    rewrite Hstep. cbn [pure_turn]. unfold case_COLLECT_ISSUE.
    rewrite (sanitize_blank _ _ Hblank). repeat split; reflexivity.
  - eexists. split.
    + unfold processAIMessage, try_catch, try_body, bind. rewrite Hstep.
      cbn [dispatch]. unfold case_CLARIFY_DETAILS.
      rewrite (sanitize_blank _ _ Hblank), (blank_has_no_skip _ Hblank). reflexivity.
    + rewrite Hstep. repeat split; reflexivity.
  - eexists. split; [apply processAIMessage_pure; rewrite Hstep; discriminate |].
    rewrite Hstep. cbn [pure_turn]. unfold case_COLLECT_NAME.
    rewrite (trim_blank _ Hblank). repeat split; reflexivity.
Qed.

Lemma blank_input_asks_again_witness :
  exists r,
    processAIMessage sample_now "   "
      (sample_conversation COLLECT_NAME (sample_data None)) ∅ = (Returns r, ∅) /\
    currentStep (updatedConversation r) = COLLECT_NAME /\
    collectedData (updatedConversation r) = sample_data None /\
    type (assistantResponse r) = type_question /\
    nextStep (assistantResponse r) = None.
Proof.
  apply (blank_input_asks_again sample_now "   "
           (sample_conversation COLLECT_NAME (sample_data None)) ∅).
  - reflexivity.
  - right. right. right. reflexivity.
Defined.

(** ** "skip" *)

(** X19.  On CLARIFY_DETAILS an input in which "skip" occurs anywhere, in
    any letter case, always moves on to SUGGEST_CATEGORY and adds nothing
    to the details, however long the rest of the input is: the array of
    details and the whole store are as before, and the category is
    suggested from the description and the details already there. *)
Theorem skip_adds_no_detail (now userInput : string)
    (conversation : ConversationState) (h : heap) (l : loc) :
  Js.includes (Js.toLowerCase userInput) "skip" = true ->
  currentStep conversation = CLARIFY_DETAILS ->
  additionalDetails (collectedData conversation) = Some (DetailsArray l) ->
  exists r,
    processAIMessage now userInput conversation h = (Returns r, h) /\
    currentStep (updatedConversation r) = SUGGEST_CATEGORY /\
    additionalDetails (collectedData (updatedConversation r)) = Some (DetailsArray l) /\
    suggestedCategory (collectedData (updatedConversation r))
    = Some (category_name
              (detectCategory
                 (Js.show (issueDescription (collectedData conversation))
                  ++ " " ++ Js.join " " (h !!! l)))).
Proof.
  intros Hskip Hstep Hd.
  destruct (processAIMessage_outcome now userInput conversation h)
    as [(t & h' & Hdisp & Hcall) | (_ & _ & s & Hs & _)]; [| congruence].
  rewrite Hstep in Hdisp. cbn [dispatch] in Hdisp.
  destruct (case_CLARIFY_DETAILS_returns _ _ _ _ _ Hdisp)
    as [(Hshort & _) | (_ & l' & base & Hbase & Hh' & Hnext & Hdata & _)].
  - rewrite Hskip, andb_false_r in Hshort. discriminate.
  - rewrite Hskip in Hh'. cbn [negb andb] in Hh'.
    destruct Hbase as [(Hl' & ->) | (Hfalsy & _)];
      [| rewrite Hd in Hfalsy; discriminate].
    assert (l' = l) as -> by congruence. subst h'.
    exists (finish now conversation t). split; [exact Hcall |].
    cbn [finish updatedConversation collectedData currentStep].
    rewrite Hnext, Hdata. repeat split; reflexivity.
Qed.

Lemma skip_adds_no_detail_witness :
  exists r,
    processAIMessage sample_now "I will SKIP this, but the invoice was charged twice"
      (sample_conversation CLARIFY_DETAILS (sample_data (Some (DetailsArray 1%positive))))
      sample_heap = (Returns r, sample_heap) /\
    currentStep (updatedConversation r) = SUGGEST_CATEGORY /\
    additionalDetails (collectedData (updatedConversation r))
    = Some (DetailsArray 1%positive) /\
    suggestedCategory (collectedData (updatedConversation r))
    = Some (category_name
              (detectCategory
                 (Js.show (issueDescription (sample_data (Some (DetailsArray 1%positive))))
                  ++ " " ++ Js.join " " (sample_heap !!! 1%positive)))).
Proof.
  apply (skip_adds_no_detail sample_now
           "I will SKIP this, but the invoice was charged twice"
           (sample_conversation CLARIFY_DETAILS
              (sample_data (Some (DetailsArray 1%positive))))
           sample_heap 1%positive).
  - vm_compute. reflexivity.
  - reflexivity.
  - reflexivity.
Defined.

(** * Categories and enumerations *)

Lemma detectCategory_member (text : string) :
  detectCategory text = GENERAL \/
  In (detectCategory text) (List.map fst CATEGORY_PATTERNS).
Proof.
  unfold detectCategory, detect_loop.
  destruct (detect_loop_from (Js.toLowerCase text) CATEGORY_PATTERNS 0 GENERAL)
    as [[-> _] | (before & w & after & Heq & -> & _)].
  - left. reflexivity.
  - destruct (0 <? hits (Js.toLowerCase text) w); [| left; reflexivity].
    right. rewrite Heq, map_app. apply in_or_app. right. left. reflexivity.
Qed.

Lemma display_name_known (c : TicketCategory) :
  exists name,
    getCategoryDisplayName (Some (category_name c)) = Text name /\
    name <> "Unknown".
Proof. destruct c; eexists; (split; [vm_compute; reflexivity | discriminate]). Qed.

(** The key is compared with the seven own keys, then with the twelve
    inherited ones. *)
Lemma own_property_found (key : string) (properties : list (string * PropertyValue)) :
  own_property key properties <> None <-> In key (List.map fst properties).
Proof.
  induction properties as [| [k v] rest IH]; cbn [own_property List.map fst In].
  - split; [congruence | tauto].
  - destruct (String.eqb key k) eqn:Hk.
    + apply String.eqb_eq in Hk. split; [auto | discriminate].
    + apply String.eqb_neq in Hk. rewrite IH. split; [auto | intros [E | H]; congruence].
Qed.

Lemma inherited_is_no_text (key : string) (v : PropertyValue) :
  own_property key Object_prototype = Some v ->
  property_truthy v = true /\ forall name, v <> Text name.
Proof.
  unfold Object_prototype. cbn [own_property].
  repeat match goal with
         | |- context [String.eqb key ?k] => destruct (String.eqb key k)
         end;
    intros H; inversion H; subst; (split; [reflexivity | discriminate]).
Qed.

Lemma own_display_name (key : string) (v : PropertyValue) :
  own_property key displayNames = Some v ->
  property_truthy v = true /\ exists name, v = Text name /\ name <> "Unknown".
Proof.
  unfold displayNames. cbn [own_property category_name].
  repeat match goal with
         | |- context [String.eqb key ?k] => destruct (String.eqb key k)
         end;
    intros H; inversion H; subst;
    (split; [reflexivity | eexists; split; [reflexivity | discriminate]]).
Qed.

(** What [getCategoryDisplayName] returns for each kind of key. *)
Lemma getCategoryDisplayName_cases (s : string) :
  (In s TicketCategorySchema /\
   exists name, getCategoryDisplayName (Some s) = Text name /\ name <> "Unknown") \/
  (~ In s TicketCategorySchema /\ In s inherited_keys /\
   (forall name, getCategoryDisplayName (Some s) <> Text name) /\
   own_property s Object_prototype = Some (getCategoryDisplayName (Some s))) \/
  (~ In s TicketCategorySchema /\ ~ In s inherited_keys /\
   getCategoryDisplayName (Some s) = Text "Unknown").
Proof.
  assert (Hschema : TicketCategorySchema = List.map fst displayNames) by reflexivity.
  unfold getCategoryDisplayName, get_property, inherited_keys. cbn [Js.show].
  pose proof (own_property_found s displayNames) as Hown.
  pose proof (own_property_found s Object_prototype) as Hinh.
  rewrite <- Hschema in Hown.
  destruct (own_property s displayNames) as [v |] eqn:Ev.
  - left. split; [apply Hown; discriminate |].
    destruct (own_display_name s v Ev) as [-> Hname]. exact Hname.
  - assert (Hnot : ~ In s TicketCategorySchema) by (intros H; apply Hown in H; congruence).
    destruct (own_property s Object_prototype) as [v |] eqn:Ei.
    + right. left. split; [exact Hnot |]. split; [apply Hinh; discriminate |].
      destruct (inherited_is_no_text s v Ei) as [-> Hv]. split; [exact Hv | reflexivity].
    + right. right. split; [exact Hnot |]. split; [| reflexivity].
      intros H. apply Hinh in H. congruence.
Qed.

Lemma pure_turn_suggests_nothing (userInput : string) (step : ConversationStep)
    (d : CollectedData) :
  step <> CLARIFY_DETAILS ->
  turn_suggestedCategory (pure_turn userInput step d) = None.
Proof.
  intros Hne. destruct step; cbn [pure_turn]; try congruence; try reflexivity.
  - unfold case_GREETING. split_ifs; reflexivity.
  - unfold case_COLLECT_NAME. split_ifs; reflexivity.
  - unfold case_COLLECT_ISSUE. split_ifs; reflexivity.
  - unfold case_SUGGEST_CATEGORY. split_ifs; reflexivity.
  - unfold case_FINAL_CONFIRMATION. split_ifs; reflexivity.
Qed.

(** X20.  A call suggests a category only when it moves from
    CLARIFY_DETAILS to SUGGEST_CATEGORY.  The category it suggests is then
    the one it stores in the collected data, it is one of technical,
    billing, account, feature_request, bug_report and general (never
    other), and it has a display name of its own, a string: the prompt never
    says "Unknown". *)
Theorem suggestion_is_a_known_category (now userInput : string)
    (conversation : ConversationState) (h : heap) :
  exists r h',
    processAIMessage now userInput conversation h = (Returns r, h') /\
    (result_suggestedCategory r = None \/
     exists c,
       result_suggestedCategory r = Some (category_name c) /\
       suggestedCategory (collectedData (updatedConversation r))
       = Some (category_name c) /\
       c <> OTHER /\
       (exists name,
          getCategoryDisplayName (Some (category_name c)) = Text name /\
          name <> "Unknown") /\
       currentStep conversation = CLARIFY_DETAILS /\
       currentStep (updatedConversation r) = SUGGEST_CATEGORY).
Proof.
  destruct (processAIMessage_outcome now userInput conversation h)
    as [(t & h' & Hd & Hcall) | (Hcall & _)].
  - exists (finish now conversation t), h'. split; [exact Hcall |].
    cbn [finish updatedConversation collectedData currentStep result_suggestedCategory].
    destruct (dispatch_returns _ _ _ _ _ _ Hd) as [(Hne & -> & _) | (Hstep & Hcase)].
    + left. apply pure_turn_suggests_nothing, Hne.
    + destruct (case_CLARIFY_DETAILS_returns _ _ _ _ _ Hcase)
        as [(_ & _ & _ & _ & _ & _ & ->) | (_ & l & base & _ & _ & -> & Hdata & -> & _)].
      * left. reflexivity.
      * right. rewrite Hdata. cbn [suggestedCategory set_suggestedCategory].
        eexists. split; [reflexivity |]. split; [reflexivity |].
        split; [| split; [apply display_name_known | split; [exact Hstep | reflexivity]]].
        match goal with |- detectCategory ?text <> OTHER =>
          destruct (detectCategory_member text) as [-> | Hin] end.
        -- discriminate.
        -- intros Hother. rewrite Hother in Hin. cbn in Hin.
           intuition discriminate.
  - exists (recover conversation), h. split; [exact Hcall |]. left. reflexivity.
Qed.

(** X21.  The enumerations and the validation schemas agree: the step
    schema accepts exactly the nine step strings and the category schema
    exactly the seven category strings, and distinct members have distinct
    strings.  Every category has a display name of its own.  A string that
    is no category is displayed as "Unknown" exactly when it is not the
    name of a property the table inherits from [Object.prototype]; for
    such a name the function returns the inherited function or object,
    not a string. *)
Theorem enumerations_match_schemas :
  (forall s, In s ConversationStepSchema <-> exists step, step_name step = s) /\
  (forall s, In s TicketCategorySchema <-> exists c, category_name c = s) /\
  (forall a b, step_name a = step_name b -> a = b) /\
  (forall a b, category_name a = category_name b -> a = b) /\
  (forall c, exists name,
     getCategoryDisplayName (Some (category_name c)) = Text name /\
     name <> "Unknown") /\
  (forall s, getCategoryDisplayName (Some s) = Text "Unknown" <->
             ~ In s TicketCategorySchema /\ ~ In s inherited_keys) /\
  (forall s, In s inherited_keys ->
             own_property s Object_prototype = Some (getCategoryDisplayName (Some s)) /\
             forall name, getCategoryDisplayName (Some s) <> Text name) /\
  (forall s, In s inherited_keys -> ~ In s TicketCategorySchema).
Proof.
  split; [| split; [| split; [| split; [| split; [| split; [| split]]]]]].
  - intros s. split.
    + cbn. intros H.
      repeat (destruct H as [<- | H];
              [first [ exists GREETING; reflexivity | exists COLLECT_NAME; reflexivity
                     | exists COLLECT_ISSUE; reflexivity | exists CLARIFY_DETAILS; reflexivity
                     | exists SUGGEST_CATEGORY; reflexivity
                     | exists CONFIRM_CATEGORY; reflexivity
                     | exists FINAL_CONFIRMATION; reflexivity
                     | exists TICKET_CREATED; reflexivity | exists ERROR; reflexivity ] |]).
      contradiction.
    + intros [step <-]. destruct step; cbn; tauto.
  - intros s. split.
    + cbn. intros H.
      repeat (destruct H as [<- | H];
              [first [ exists TECHNICAL; reflexivity | exists BILLING; reflexivity
                     | exists ACCOUNT; reflexivity | exists FEATURE_REQUEST; reflexivity
                     | exists BUG_REPORT; reflexivity | exists GENERAL; reflexivity
                     | exists OTHER; reflexivity ] |]).
      contradiction.
    + intros [c <-]. destruct c; cbn; tauto.
  - intros a b. destruct a, b; cbn; intros H; try reflexivity; discriminate.
  - intros a b. destruct a, b; cbn; intros H; try reflexivity; discriminate.
  - exact display_name_known.
  - intros s.
    destruct (getCategoryDisplayName_cases s)
      as [(Hin & name & Hv & Hname) | [(Hnot & Hin & Hv & _) | (Hnot & Hno & Hv)]].
    + rewrite Hv. split; [intros E; congruence | tauto].
    + split; [intros E; destruct (Hv _ E) | tauto].
    + split; [tauto | intros _; exact Hv].
  - intros s Hin.
    destruct (getCategoryDisplayName_cases s)
      as [(Hcat & _) | [(_ & _ & Hv & Hown) | (_ & Hno & _)]].
    + exfalso. revert Hcat. cbn in Hin.
      repeat (destruct Hin as [<- | Hin]; [cbn; intuition discriminate |]).
      contradiction.
    + split; assumption.
    + contradiction.
  - intros s Hin. cbn in Hin.
    repeat (destruct Hin as [<- | Hin]; [cbn; intuition discriminate |]).
    contradiction.
Qed.

(** * The transition function and the engine *)

(** X22.  [getNextStep] does not look at the input and never gives
    GREETING.  A call that leaves its step follows [getNextStep], with
    four exceptions: from SUGGEST_CATEGORY without an e-mail it goes
    straight to COLLECT_NAME, from FINAL_CONFIRMATION it may go back to
    GREETING, from CLARIFY_DETAILS it may end in ERROR, and from
    CONFIRM_CATEGORY it ends in ERROR although [getNextStep] has a
    successor for that step. *)
Theorem engine_follows_getNextStep (now userInput : string)
    (conversation : ConversationState) (h : heap) :
  (forall step input input' d, getNextStep step input d = getNextStep step input' d) /\
  (forall step input d, getNextStep step input d <> GREETING) /\
  exists r h',
    processAIMessage now userInput conversation h = (Returns r, h') /\
    let current := currentStep conversation in
    let next := currentStep (updatedConversation r) in
    let d' := collectedData (updatedConversation r) in
    next = current \/
    next = getNextStep current userInput d' \/
    (current = SUGGEST_CATEGORY /\ next = COLLECT_NAME /\
     Js.truthy (userEmail d') = false) \/
    (current = FINAL_CONFIRMATION /\ next = GREETING) \/
    (current = CLARIFY_DETAILS /\ next = ERROR) \/
    (current = CONFIRM_CATEGORY /\ next = ERROR).
Proof.
  split; [intros step input input' d; destruct step; reflexivity |].
  split; [intros step input d; destruct step; cbn; try discriminate;
          destruct (negb _); discriminate |].
  destruct (processAIMessage_outcome now userInput conversation h)
    as [(t & h' & Hd & Hcall) | (Hcall & Hstep & _)].
  - exists (finish now conversation t), h'. split; [exact Hcall |].
    cbn [finish updatedConversation collectedData currentStep].
    destruct (dispatch_returns _ _ _ _ _ _ Hd) as [(Hne & -> & _) | (Hstep & Hcase)].
    + destruct (currentStep conversation); cbn [pure_turn]; try congruence.
      * unfold case_GREETING. split_ifs; cbn; auto.
      * unfold case_COLLECT_NAME. split_ifs; cbn; auto.
      * unfold case_COLLECT_ISSUE. split_ifs; cbn; auto.
      * unfold case_SUGGEST_CATEGORY.
        destruct (isAffirmative userInput), (isNegative userInput); cbn;
          destruct (Js.truthy (userEmail (collectedData conversation))) eqn:Hmail;
          cbn; rewrite ?Hmail; auto 10.
      * cbn. auto 10.
      * unfold case_FINAL_CONFIRMATION. split_ifs; cbn; auto 10.
      * cbn. auto.
      * cbn. auto.
    + rewrite Hstep.
      destruct (case_CLARIFY_DETAILS_returns _ _ _ _ _ Hcase)
        as [(_ & -> & _) | (_ & l & base & _ & _ & -> & _)]; cbn; auto.
  - exists (recover conversation), h. split; [exact Hcall |].
    rewrite Hstep. cbn. auto 10.
Qed.

(** * What a conversation holds, step by step *)

Lemma detectCategory_not_other (text : string) : detectCategory text <> OTHER.
Proof.
  destruct (detectCategory_member text) as [-> | Hin]; [discriminate |].
  intros Hother. rewrite Hother in Hin. cbn in Hin. intuition discriminate.
Qed.

Lemma or_else_nonempty (o : option string) (d : string) :
  d <> "" -> Js.or_else o d <> "".
Proof.
  intros Hd. unfold Js.or_else. destruct o as [s |]; cbn [Js.truthy Js.show]; [| exact Hd].
  destruct (String.eqb s "") eqn:Hs; cbn [negb]; [exact Hd |].
  intros ->. discriminate.
Qed.

Lemma truthy_nonempty (o : option string) (n : string) :
  Js.truthy o = true -> o = Some n -> n <> "".
Proof. intros Ht -> ->. discriminate. Qed.

Ltac crush_data :=
  unfold valid_data, present in *;
  cbn [userName userEmail issueDescription issueTitle suggestedCategory
       confirmedCategory additionalDetails potentialName
       set_userName set_userEmail set_issueDescription set_issueTitle
       set_suggestedCategory set_confirmedCategory set_additionalDetails
       set_potentialName level] in *;
  repeat match goal with
         | H : _ /\ _ |- _ => destruct H
         end;
  repeat split; intros;
  repeat match goal with
         | H : Some _ = Some _ |- _ => injection H as <-
         end;
  try solve [ eauto | congruence | discriminate | lia
            | eapply proj1; eauto | eapply proj2; eauto
            | match goal with H : _ -> _ /\ _ |- _ => apply H; lia end
            | match goal with H : _ -> _ <> None |- _ => apply H; lia end ].

(** The invariant survives the cases that do not use the store. *)
Lemma pure_turn_invariant (userInput : string) (step : ConversationStep)
    (d : CollectedData) :
  step <> CLARIFY_DETAILS ->
  valid_data d -> present d (level step) ->
  valid_data (turn_updatedData (pure_turn userInput step d)) /\
  present (turn_updatedData (pure_turn userInput step d))
          (level (turn_nextStep (pure_turn userInput step d))).
Proof.
  intros Hne Hvalid Hpresent.
  destruct step; cbn [pure_turn]; try congruence.
  - (* GREETING *)
    unfold case_GREETING.
    destruct (needsClarification (extractNameFromInput userInput)) eqn:Hclar.
    + destruct (negb _ && isSentence _); cbn [turn_updatedData turn_nextStep];
        split; crush_data.
    + assert (Hname : name (extractNameFromInput userInput) <> "").
      { destruct (name_shape userInput) as (_ & _ & Hplain).
        destruct (Hplain Hclar) as (_ & H2 & _).
        intros Hempty. rewrite Hempty in H2. cbn in H2. lia. }
      destruct (Js.truthy (potentialName d)) eqn:Hstaged; cbn [andb].
      * destruct (isAffirmative userInput || isNegative userInput);
          [destruct (isAffirmative userInput) |];
          cbn [turn_updatedData turn_nextStep getNextStep];
          cbn [potentialName set_userName]; rewrite ?Hstaged;
          split; crush_data;
          try (apply truthy_is_some; assumption);
          try (eapply truthy_nonempty; eassumption).
      * cbn [turn_updatedData turn_nextStep getNextStep].
        cbn [potentialName set_userName]. rewrite Hstaged.
        split; crush_data.
  - (* COLLECT_NAME *)
    unfold case_COLLECT_NAME.
    destruct (test emailRegex (Js.toLowerCase (Js.trim userInput))) eqn:Hmail;
      cbn [turn_updatedData turn_nextStep getNextStep]; split; crush_data.
  - (* COLLECT_ISSUE *)
    unfold case_COLLECT_ISSUE.
    destruct (String.length (sanitize 1000 userInput) <? 10) eqn:Hlen;
      cbn [turn_updatedData turn_nextStep getNextStep]; split; crush_data.
    + apply Nat.ltb_ge. exact Hlen.
    + apply sanitize_length.
    + apply or_else_nonempty. discriminate.
  - (* SUGGEST_CATEGORY *)
    assert (Hsuggested : suggestedCategory d <> None)
      by (apply Hpresent; cbn; lia).
    unfold case_SUGGEST_CATEGORY.
    destruct (isAffirmative userInput); [| destruct (isNegative userInput)];
      cbn [userEmail set_confirmedCategory];
      destruct (Js.truthy (userEmail d)) eqn:Hmail;
      cbn [negb turn_updatedData turn_nextStep getNextStep];
      split; crush_data;
      try (apply truthy_is_some; assumption);
      try (exists GENERAL; split; [reflexivity | discriminate]);
      try (eexists; split; [reflexivity | apply detectCategory_not_other]).
  - (* CONFIRM_CATEGORY *)
    cbn. split; crush_data.
  - (* FINAL_CONFIRMATION *)
    unfold case_FINAL_CONFIRMATION.
    destruct (isAffirmative userInput);
      cbn [turn_updatedData turn_nextStep]; split; crush_data.
    apply or_else_nonempty. discriminate.
  - cbn. split; crush_data.
  - cbn. split; crush_data.
Qed.

Lemma call_keeps_invariant (now userInput : string)
    (conversation : ConversationState) (h : heap) :
  conversation_invariant conversation ->
  exists r h',
    processAIMessage now userInput conversation h = (Returns r, h') /\
    conversation_invariant (updatedConversation r).
Proof.
  intros [Hvalid Hpresent].
  destruct (processAIMessage_outcome now userInput conversation h)
    as [(t & h' & Hd & Hcall) | (Hcall & _)].
  - exists (finish now conversation t), h'. split; [exact Hcall |].
    unfold conversation_invariant.
    cbn [finish updatedConversation collectedData currentStep].
    destruct (dispatch_returns _ _ _ _ _ _ Hd) as [(Hne & -> & _) | (Hstep & Hcase)].
    + apply pure_turn_invariant; assumption.
    + rewrite Hstep in Hpresent.
      destruct (case_CLARIFY_DETAILS_returns _ _ _ _ _ Hcase)
        as [(_ & -> & -> & _) | (_ & l & base & _ & _ & -> & -> & _)].
      * split; assumption.
      * split; crush_data.
        eexists. split; [reflexivity | apply detectCategory_not_other].
  - exists (recover conversation), h. split; [exact Hcall |].
    split; [exact Hvalid |]. cbn. unfold present. repeat split; intros; lia.
Qed.

Lemma invariant_ticket_ready (s : ConversationState) :
  conversation_invariant s ->
  currentStep s = TICKET_CREATED ->
  exists n e x t k,
    userName (collectedData s) = Some n /\ n <> "" /\
    userEmail (collectedData s) = Some e /\ test emailRegex e = true /\
    issueDescription (collectedData s) = Some x /\
    10 <= String.length x /\ String.length x <= 1000 /\
    issueTitle (collectedData s) = Some t /\ t <> "" /\
    confirmedCategory (collectedData s) = Some (category_name k) /\ k <> OTHER.
Proof.
  intros [Hvalid Hpresent] Hstep. rewrite Hstep in Hpresent.
  destruct Hvalid as (Vn & Ve & Vx & Vt & _ & Vk).
  destruct Hpresent as (Pn & Px & _ & Pk & Pe). cbn [level] in *.
  destruct (userName (collectedData s)) as [n |] eqn:En; [| exfalso; apply Pn; [lia | reflexivity]].
  destruct (userEmail (collectedData s)) as [e |] eqn:Ee; [| exfalso; apply Pe; [lia | reflexivity]].
  destruct Px as [Px Pt]; [lia |].
  destruct (issueDescription (collectedData s)) as [x |] eqn:Ex; [| contradiction].
  destruct (issueTitle (collectedData s)) as [t |] eqn:Et; [| contradiction].
  destruct (confirmedCategory (collectedData s)) as [k |] eqn:Ek;
    [| exfalso; apply Pk; [lia | reflexivity]].
  destruct (Vk k eq_refl) as (c & -> & Hc).
  destruct (Vx x eq_refl) as [H10 H1000].
  exists n, e, x, t, c. repeat split; auto.
Qed.

(** X23.  What a conversation has collected grows with its step.  The
    invariant says that every field present holds an accepted value, and
    that the name is present from COLLECT_ISSUE on, description and title
    from CLARIFY_DETAILS on, the suggested category from SUGGEST_CATEGORY
    on, the confirmed category from COLLECT_NAME on and the e-mail on
    CONFIRM_CATEGORY, FINAL_CONFIRMATION and TICKET_CREATED.  Every call keeps it, so every sequence of
    calls from a conversation that has it (an empty one on GREETING has
    it) returns only conversations that have it.  In particular every
    conversation that comes out on TICKET_CREATED has what a ticket
    needs: a name and a title that are not empty, an e-mail that passes
    the check, a description of 10 to 1000 characters and a category of
    the enumeration. *)
Theorem conversation_invariant_holds (turns : list (string * string))
    (conversation : ConversationState) (h : heap) :
  conversation_invariant conversation ->
  exists states h',
    converse turns conversation h = (Returns states, h') /\
    List.length states = List.length turns /\
    Forall conversation_invariant states /\
    Forall (fun s =>
              currentStep s = TICKET_CREATED ->
              exists n e x t k,
                userName (collectedData s) = Some n /\ n <> "" /\
                userEmail (collectedData s) = Some e /\ test emailRegex e = true /\
                issueDescription (collectedData s) = Some x /\
                10 <= String.length x /\ String.length x <= 1000 /\
                issueTitle (collectedData s) = Some t /\ t <> "" /\
                confirmedCategory (collectedData s) = Some (category_name k) /\
                k <> OTHER)
           states.
Proof.
  revert conversation h.
  induction turns as [| [now userInput] later IH]; intros conversation h Hinv.
  - exists [], h. repeat split; constructor.
  - destruct (call_keeps_invariant now userInput conversation h Hinv)
      as (r & h1 & Hcall & Hinv1).
    destruct (IH (updatedConversation r) h1 Hinv1) as (states & h' & Hlater & Hlen & Hall & Hready).
    exists (updatedConversation r :: states), h'. split.
    + apply converse_cons with (h1 := h1); assumption.
    + split; [cbn; rewrite Hlen; reflexivity |].
      split; constructor; try assumption.
      apply invariant_ticket_ready. exact Hinv1.
Qed.

Lemma conversation_invariant_holds_witness :
  exists states h',
    converse [(sample_now, "John Smith"); (sample_now, "My app crashes on login");
              (sample_now, "skip"); (sample_now, "yes");
              (sample_now, "John@Example.com "); (sample_now, "yes")]
      (sample_conversation GREETING emptyData) ∅ = (Returns states, h') /\
    List.length states = 6 /\
    Forall conversation_invariant states /\
    Forall (fun s =>
              currentStep s = TICKET_CREATED ->
              exists n e x t k,
                userName (collectedData s) = Some n /\ n <> "" /\
                userEmail (collectedData s) = Some e /\ test emailRegex e = true /\
                issueDescription (collectedData s) = Some x /\
                10 <= String.length x /\ String.length x <= 1000 /\
                issueTitle (collectedData s) = Some t /\ t <> "" /\
                confirmedCategory (collectedData s) = Some (category_name k) /\
                k <> OTHER)
           states.
Proof.
  apply (conversation_invariant_holds
           [(sample_now, "John Smith"); (sample_now, "My app crashes on login");
            (sample_now, "skip"); (sample_now, "yes");
            (sample_now, "John@Example.com "); (sample_now, "yes")]
           (sample_conversation GREETING emptyData) ∅).
  split.
  - repeat split; intros; discriminate.
  - cbn. unfold present. repeat split; intros; lia.
Defined.

(** * Details and letter case *)

(** X24.  On CLARIFY_DETAILS, with an array of details in the collected
    data, an input without "skip" whose cleaned text has five characters
    or more is appended at the end of that array: the entries already
    there stay, in order, the other arrays of the store are untouched, and
    the category is then suggested from the description and all details,
    the new one included, joined by spaces. *)
Theorem detail_is_appended (now userInput : string)
    (conversation : ConversationState) (h : heap) (l : loc) :
  currentStep conversation = CLARIFY_DETAILS ->
  additionalDetails (collectedData conversation) = Some (DetailsArray l) ->
  Js.includes (Js.toLowerCase userInput) "skip" = false ->
  5 <= String.length (sanitize 500 userInput) ->
  exists r h',
    processAIMessage now userInput conversation h = (Returns r, h') /\
    h' !!! l = (h !!! l ++ [sanitize 500 userInput])%list /\
    (forall l', l' <> l -> h' !! l' = h !! l') /\
    currentStep (updatedConversation r) = SUGGEST_CATEGORY /\
    additionalDetails (collectedData (updatedConversation r)) = Some (DetailsArray l) /\
    suggestedCategory (collectedData (updatedConversation r))
    = Some (category_name
              (detectCategory
                 (Js.show (issueDescription (collectedData conversation)) ++ " " ++
                  Js.join " " (h !!! l ++ [sanitize 500 userInput])%list))).
Proof.
  intros Hstep Hd Hskip Hlen.
  destruct (processAIMessage_outcome now userInput conversation h)
    as [(t & h' & Hdisp & Hcall) | (_ & _ & s & Hs & _)]; [| congruence].
  rewrite Hstep in Hdisp. cbn [dispatch] in Hdisp.
  destruct (case_CLARIFY_DETAILS_returns _ _ _ _ _ Hdisp)
    as [(Hshort & _) | (_ & l' & base & Hbase & Hh' & Hnext & Hdata & _)].
  - apply andb_true_iff in Hshort as [Hshort _]. apply Nat.ltb_lt in Hshort. lia.
  - rewrite Hskip in Hh'. apply Nat.leb_le in Hlen. rewrite Hlen in Hh'.
    cbn [negb andb] in Hh'.
    destruct Hbase as [(Hl' & ->) | (Hfalsy & _)];
      [| rewrite Hd in Hfalsy; discriminate].
    assert (l' = l) as -> by congruence.
    exists (finish now conversation t), h'. split; [exact Hcall |].
    cbn [finish updatedConversation collectedData currentStep].
    rewrite Hnext, Hdata. subst h'.
    rewrite lookup_total_insert_eq.
    split; [reflexivity |].
    split; [intros l0 Hne; apply lookup_insert_ne; congruence |].
    repeat split; reflexivity.
Qed.

Lemma detail_is_appended_witness :
  exists r h',
    processAIMessage sample_now "it happens every morning"
      (sample_conversation CLARIFY_DETAILS (sample_data (Some (DetailsArray 1%positive))))
      sample_heap = (Returns r, h') /\
    h' !!! 1%positive
    = (sample_heap !!! 1%positive ++ [sanitize 500 "it happens every morning"])%list /\
    currentStep (updatedConversation r) = SUGGEST_CATEGORY.
Proof.
  destruct (detail_is_appended sample_now "it happens every morning"
              (sample_conversation CLARIFY_DETAILS
                 (sample_data (Some (DetailsArray 1%positive))))
              sample_heap 1%positive)
    as (r & h' & Hcall & Harr & _ & Hstep & _).
  - reflexivity.
  - reflexivity.
  - vm_compute. reflexivity.
  - vm_compute. lia.
  - exists r, h'. split; [exact Hcall | split; [exact Harr | exact Hstep]].
Defined.

Lemma lower_twice (c : ascii) : Js.lower (Js.lower c) = Js.lower c.
Proof. destruct c as [[] [] [] [] [] [] [] []]; vm_compute; reflexivity. Qed.

Lemma toLowerCase_twice (s : string) :
  Js.toLowerCase (Js.toLowerCase s) = Js.toLowerCase s.
Proof.
  induction s as [| c s IH]; [reflexivity |].
  cbn [Js.toLowerCase]. rewrite lower_twice, IH. reflexivity.
Qed.

Lemma trimEnd_cons (c : ascii) (t : string) :
  Js.trimEnd (String c t)
  = match Js.trimEnd t with
    | EmptyString => if Js.is_space c then EmptyString else String c EmptyString
    | t' => String c t'
    end.
Proof. reflexivity. Qed.

Lemma trimEnd_twice (x : string) : Js.trimEnd (Js.trimEnd x) = Js.trimEnd x.
Proof.
  induction x as [| c x IH]; [reflexivity |].
  rewrite (trimEnd_cons c x).
  destruct (Js.trimEnd x) as [| c' x'] eqn:Hx.
  - destruct (Js.is_space c) eqn:Hc; [reflexivity |].
    rewrite trimEnd_cons. cbn [Js.trimEnd]. rewrite Hc. reflexivity.
  - rewrite trimEnd_cons, IH. reflexivity.
Qed.

(** X25.  The classifiers do not see letter case, and the reply
    detectors do not see white space around the input: lower-casing the
    input changes neither the detected category nor the two detectors'
    answers, and trimming it changes neither detector's answer. *)
Theorem classifiers_ignore_case (input : string) :
  detectCategory (Js.toLowerCase input) = detectCategory input /\
  isAffirmative (Js.toLowerCase input) = isAffirmative input /\
  isNegative (Js.toLowerCase input) = isNegative input /\
  isAffirmative (Js.trim input) = isAffirmative input /\
  isNegative (Js.trim input) = isNegative input.
Proof.
  split; [unfold detectCategory; rewrite toLowerCase_twice; reflexivity |].
  split; [unfold isAffirmative; rewrite toLowerCase_twice; reflexivity |].
  split; [unfold isNegative; rewrite toLowerCase_twice; reflexivity |].
  assert (Hcomm : Js.trim (Js.toLowerCase (Js.trim input)) = Js.trim (Js.toLowerCase input)).
  { assert (Hlow_start : forall s, Js.toLowerCase (Js.trimStart s) = Js.trimStart (Js.toLowerCase s)).
    { induction s as [| c s IH]; [reflexivity |].
      cbn [Js.trimStart Js.toLowerCase]. rewrite lower_keeps_space.
      destruct (Js.is_space c); [exact IH | reflexivity]. }
    assert (Hlow_end : forall s, Js.toLowerCase (Js.trimEnd s) = Js.trimEnd (Js.toLowerCase s)).
    { induction s as [| c s IH]; [reflexivity |].
      cbn [Js.trimEnd Js.toLowerCase]. rewrite <- IH, lower_keeps_space.
      destruct (Js.trimEnd s); cbn [Js.toLowerCase];
        [destruct (Js.is_space c) |]; reflexivity. }
    assert (Hlow : forall s, Js.toLowerCase (Js.trim s) = Js.trim (Js.toLowerCase s)).
    { intros s. unfold Js.trim. rewrite Hlow_end, Hlow_start. reflexivity. }
    assert (Htrim : forall s, Js.trim (Js.trim s) = Js.trim s).
    { intros s. unfold Js.trim.
      assert (Hstart : forall x, starts_clean x = true -> Js.trimStart x = x).
      { intros x. destruct x as [| c x]; [reflexivity |]. cbn [starts_clean Js.trimStart].
        destruct (Js.is_space c); [discriminate | reflexivity]. }
      rewrite (Hstart (Js.trimEnd (Js.trimStart s))) by apply starts_clean_trim.
      apply trimEnd_twice. }
    rewrite Hlow, Htrim. reflexivity. }
  unfold isAffirmative, isNegative. rewrite Hcomm. split; reflexivity.
Qed.
